(** * Lunar lander: terrain generation, physics tick and landing outcome

    A shallow embedding of [game.js].  JavaScript numbers are modelled as
    exact rationals ([Q]); a slot of an array that was never written, and the
    NaN that arithmetic on it produces, are modelled by [None].  The global
    variables of the script ([terrain], [padX], [padY], [lander], [score],
    [message], [keys]) are the fields of one record that [update] transforms.
    [Math.random] is a sequence of draws indexed by a counter that is threaded
    through the generator.

    The script computes in binary64, where every operation rounds.  The
    statements below are the ones that hold of both readings: they follow the
    expression the script evaluates, or are about whole numbers that binary64
    holds exactly, or leave room for the rounding.  Where a result turns on
    the rounding itself, [Binary64] gives the function over binary64 values. *)

From Stdlib Require Import String ZArith QArith Qround Qabs Qminmax Lqa Lia.
From Stdlib Require Import List Bool Arith PeanoNat.
From Stdlib Require PrimFloat.
From Equations Require Import Equations.
Import ListNotations.

Open Scope Q_scope.

(** ** Results of fallible code *)

(** A property read from [undefined] throws a [TypeError]; a loop that has not
    finished within the steps it was given is [OutOfFuel]. *)
Inductive result (A : Type) : Type :=
| Ok (a : A)
| TypeError
| OutOfFuel.

Arguments Ok {A} a.
Arguments TypeError {A}.
Arguments OutOfFuel {A}.

Definition bind {A B : Type} (r : result A) (k : A -> result B) : result B :=
  match r with
  | Ok a => k a
  | TypeError => TypeError
  | OutOfFuel => OutOfFuel
  end.

Notation "x <- r ;; k" := (bind r (fun x => k))
  (at level 61, r at next level, right associativity).

(** ** The numeric primitives of the script *)

Module Num.

(** [a < b] *)
Definition ltb (a b : Q) : bool := negb (Qle_bool b a).
(** [a <= b] *)
Definition leb (a b : Q) : bool := Qle_bool a b.
(** [a > b] *)
Definition gtb (a b : Q) : bool := ltb b a.
(** [a >= b] *)
Definition geb (a b : Q) : bool := leb b a.
(** [a === b] *)
Definition eqb (a b : Q) : bool := Qeq_bool a b.

Definition Math_floor (q : Q) : Q := inject_Z (Qfloor q).
(** [Math.round] rounds to the nearest integer, halves upwards. *)
Definition Math_round (q : Q) : Q := inject_Z (Qfloor (q + (1 # 2))).
Definition Math_abs (q : Q) : Q := Qabs q.
Definition Math_max (a b : Q) : Q := Qmax a b.
Definition Math_min (a b : Q) : Q := Qmin a b.

(** [a % b]: the remainder of the division truncated towards zero *)
Definition rem (a b : Q) : Q :=
  let d := a / b in
  a - b * inject_Z (Z.quot (Qnum d) (Zpos (Qden d))).

End Num.

Import Num.

(** ** Constants *)

Definition W : Q := 800.
Definition H : Q := 600.
Definition GRAVITY : Q := 0.025.
Definition THRUST_POWER : Q := 0.06.
Definition ROTATE_SPEED : Q := 2.5.
Definition MAX_LAND_VY : Q := 2.0.
Definition MAX_LAND_VX : Q := 1.2.
Definition MAX_LAND_ANGLE : Q := 15.
Definition INITIAL_FUEL : Q := 500.
Definition PAD_WIDTH : Q := 80.

(** ** Terrain points *)

Record Point : Type := mkPoint { px : Q; py : Q }.

(** [terrain[i]], [undefined] past the end *)
Definition get (terrain : list Point) (i : nat) : option Point :=
  nth_error terrain i.

(** [terrain[i].x] and the like: a property read on [terrain[i]] *)
Definition deref (o : option Point) : result Point :=
  match o with
  | Some p => Ok p
  | None => TypeError
  end.

(** ** Height lookup: [terrainYAt] *)

(** One iteration of the [while (lo < hi)] loop of the binary search. *)
Definition search_step (terrain : list Point) (x : Q) (lo hi : nat)
  : result (nat * nat) :=
  let mid := ((lo + hi) / 2)%nat in
  p <- deref (get terrain (mid + 1)) ;;
  if leb (px p) x then Ok ((mid + 1)%nat, hi) else Ok (lo, mid).

(** The loop, run for at most [fuel] iterations; its value is the final [lo]. *)
Fixpoint search (fuel : nat) (terrain : list Point) (x : Q) (lo hi : nat)
  : result nat :=
  if (lo <? hi)%nat then
    match fuel with
    | O => OutOfFuel
    | S fuel' =>
        st <- search_step terrain x lo hi ;;
        search fuel' terrain x (fst st) (snd st)
    end
  else Ok lo.

Definition terrainYAt_fuel (fuel : nat) (terrain : list Point) (x : Q)
  : result Q :=
  if (length terrain <? 2)%nat then Ok H
  else
    lo <- search fuel terrain x 0 (length terrain - 2) ;;
    p1 <- deref (get terrain lo) ;;
    p2 <- deref (get terrain (Nat.min (lo + 1) (length terrain - 1))) ;;
    if eqb (px p2) (px p1) then Ok (py p1)
    else
      let t := (x - px p1) / (px p2 - px p1) in
      Ok (py p1 + t * (py p2 - py p1)).

(** The lookup as the game calls it.  The interval of the search starts at
    [terrain.length - 2] wide and loses at least one index per iteration, so
    [terrain.length] iterations are more than the loop can use
    (see [search_terminates]). *)
Definition terrainYAt (terrain : list Point) (x : Q) : result Q :=
  terrainYAt_fuel (length terrain) terrain x.

(** The x-coordinates are strictly increasing. *)
Definition x_increasing (terrain : list Point) : Prop :=
  forall i j p q, (i < j)%nat ->
    get terrain i = Some p -> get terrain j = Some q -> px p < px q.

(** The value on the segment from [p1] to [p2], as the script computes it *)
Definition interpolate (p1 p2 : Point) (x : Q) : Q :=
  py p1 + (x - px p1) / (px p2 - px p1) * (py p2 - py p1).

(** What the loop establishes: the index it returns lies in the interval, the
    point at it is not right of [x] unless it is the left end, and the next
    point is right of [x] unless it is the right end. *)
Definition brackets (terrain : list Point) (x : Q) (lo hi k : nat) : Prop :=
  (lo <= k <= hi)%nat
  /\ (k = lo \/ exists p, get terrain k = Some p /\ px p <= x)
  /\ (k = hi \/ exists p, get terrain (k + 1) = Some p /\ x < px p).


(** ** Terrain generation: [generateTerrain] *)

(** The values that successive calls of [Math.random] return. *)
Definition Random : Type := nat -> Q.

(** A number that may be NaN; reading a slot never written gives [undefined],
    which arithmetic turns into NaN. *)
Definition num : Type := option Q.

(** The array [raw], and the number of draws made so far. *)
Record GenState : Type := mkGen { raw : nat -> num; draws : nat }.

(** [raw[i] = v] *)
Definition raw_set (a : nat -> num) (i : nat) (v : num) : nat -> num :=
  fun j => if Nat.eqb j i then v else a j.

(** [(a + b) / 2 + (r - 0.5) * rough] *)
Definition displaced (a b : num) (r rough : Q) : num :=
  match a, b with
  | Some a', Some b' => Some ((a' + b') / 2 + (r - 0.5) * rough)
  | _, _ => None
  end.

(** [Math.max(H * 0.45, Math.min(H - 20, v))] *)
Definition clamp (v : num) : num :=
  match v with
  | Some q => Some (Math_max (H * 0.45) (Math_min (H - 20) q))
  | None => None
  end.

Equations? displace (rnd : Random) (lo hi : nat) (rough : Q) (st : GenState)
  : GenState by wf (hi - lo)%nat lt :=
  displace rnd lo hi rough st with le_lt_dec (hi - lo) 1 := {
    | left _ => st
    | right _ =>
        let mid := ((lo + hi) / 2)%nat in
        let v := displaced (raw st lo) (raw st hi) (rnd (draws st)) rough in
        let st1 := mkGen (raw_set (raw st) mid (clamp v)) (S (draws st)) in
        displace rnd mid hi (rough * 0.6)
          (displace rnd lo mid (rough * 0.6) st1) }.
Proof.
  all: subst mid;
       change (fst (Nat.divmod (lo + hi) 1 0 1)) with ((lo + hi) / 2)%nat;
       assert (Hd := Nat.div_mod_eq (lo + hi) 2);
       assert (Hm := Nat.mod_upper_bound (lo + hi) 2); lia.
Qed.

Record Terrain : Type := mkTerrain {
  points : list Point;
  terrain_padX : Q;
  terrain_padY : Q
}.

Definition step : Q := 10.

(** [Math.round(v) || padY] *)
Definition round_or (v : num) (padY : Q) : Q :=
  match v with
  | Some q => if eqb (Math_round q) 0 then padY else Math_round q
  | None => padY
  end.

(** The point pushed for index [i] by the final loop. *)
Definition terrain_point (a : nat -> num) (padX padY : Q) (i : nat) : Point :=
  let x := inject_Z (Z.of_nat i) * step in
  if geb x padX && leb x (padX + PAD_WIDTH)
  then mkPoint x padY
  else mkPoint x (round_or (a i) padY).

(** [generateTerrain], started when [n] draws have been made; it returns the
    terrain and the number of draws made when it is done. *)
Definition generateTerrain (rnd : Random) (n : nat) : Terrain * nat :=
  let padX := Math_floor (rnd n * (W * 0.5) + W * 0.2) in
  let padY := Math_floor (rnd (n + 1)%nat * (H * 0.25) + H * 0.55) in
  let segs := (Z.to_nat (Qceiling (W / step)) + 1)%nat in
  let raw0 := raw_set (fun _ => None) 0
                (Some (padY + (rnd (n + 2)%nat - 0.5) * 80)) in
  let raw1 := raw_set raw0 (segs - 1)
                (Some (padY + (rnd (n + 3)%nat - 0.5) * 80)) in
  let st := displace rnd 0 (segs - 1) 120 (mkGen raw1 (n + 4)) in
  (mkTerrain (map (terrain_point (raw st) padX padY) (seq 0 segs)) padX padY,
   draws st).

(** The array [raw] of [generateTerrain] when both ends are seeded, and when
    [displace] has run on it. *)
Definition seeded (rnd : Random) (n : nat) : GenState :=
  let padY := Math_floor (rnd (n + 1)%nat * (H * 0.25) + H * 0.55) in
  let raw0 := raw_set (fun _ => None) 0
                (Some (padY + (rnd (n + 2)%nat - 0.5) * 80)) in
  mkGen (raw_set raw0 80 (Some (padY + (rnd (n + 3)%nat - 0.5) * 80)))
        (n + 4).

Definition displaced_raw (rnd : Random) (n : nat) : nat -> num :=
  raw (displace rnd 0 80 120 (seeded rnd n)).

(** ** Lander state *)

Module Lander.
Record t : Type := mk {
  x : Q;
  y : Q;
  vx : Q;
  vy : Q;
  angle : Q;
  fuel : Q;
  thrusting : bool;
  dead : bool;
  landed : bool
}.

Definition set_x (v : Q) (l : t) : t :=
  mk v (y l) (vx l) (vy l) (angle l) (fuel l) (thrusting l) (dead l) (landed l).
Definition set_y (v : Q) (l : t) : t :=
  mk (x l) v (vx l) (vy l) (angle l) (fuel l) (thrusting l) (dead l) (landed l).
Definition set_vx (v : Q) (l : t) : t :=
  mk (x l) (y l) v (vy l) (angle l) (fuel l) (thrusting l) (dead l) (landed l).
Definition set_vy (v : Q) (l : t) : t :=
  mk (x l) (y l) (vx l) v (angle l) (fuel l) (thrusting l) (dead l) (landed l).
Definition set_angle (v : Q) (l : t) : t :=
  mk (x l) (y l) (vx l) (vy l) v (fuel l) (thrusting l) (dead l) (landed l).
Definition set_fuel (v : Q) (l : t) : t :=
  mk (x l) (y l) (vx l) (vy l) (angle l) v (thrusting l) (dead l) (landed l).
Definition set_thrusting (b : bool) (l : t) : t :=
  mk (x l) (y l) (vx l) (vy l) (angle l) (fuel l) b (dead l) (landed l).
Definition set_dead (b : bool) (l : t) : t :=
  mk (x l) (y l) (vx l) (vy l) (angle l) (fuel l) (thrusting l) b (landed l).
Definition set_landed (b : bool) (l : t) : t :=
  mk (x l) (y l) (vx l) (vy l) (angle l) (fuel l) (thrusting l) (dead l) b.
End Lander.

(** [createLander]; [r] is the value its call of [Math.random] returns. *)
Definition createLander (r : Q) : Lander.t :=
  Lander.mk (W / 2) 80 ((r - 0.5) * 1.5) 0.5 0 INITIAL_FUEL false false false.

(** ** Input and game state *)

(** The entries of [keys] that [update] reads; a code never pressed reads
    [undefined], which is as falsy as [false]. *)
Record Keys : Type := mkKeys {
  ArrowLeft : bool;
  ArrowRight : bool;
  ArrowUp : bool;
  Space : bool
}.

(** The [text] of a message, with the values its template interpolates. *)
Inductive Text : Type :=
| LandedSafely (score : Q)  (** [LANDED SAFELY!  Score: ${score}] *)
| MissedThePad              (** [CRASHED – missed the pad!] *)
| TiltedTooFar              (** [CRASHED – tilted too far!] *)
| TooFast (speed : Q).      (** [CRASHED – too fast! (${speed.toFixed(2)} px/f)] *)

Record Message : Type := mkMessage { text : Text; color : string }.

(** The global variables of the script. *)
Record Game : Type := mkGame {
  terrain : list Point;
  padX : Q;
  padY : Q;
  lander : Lander.t;
  score : Q;
  message : option Message;
  keys : Keys
}.

Definition set_lander (l : Lander.t) (g : Game) : Game :=
  mkGame (terrain g) (padX g) (padY g) l (score g) (message g) (keys g).
Definition set_score (s : Q) (g : Game) : Game :=
  mkGame (terrain g) (padX g) (padY g) (lander g) s (message g) (keys g).
Definition set_message (m : Message) (g : Game) : Game :=
  mkGame (terrain g) (padX g) (padY g) (lander g) (score g) (Some m) (keys g).
Definition set_keys (k : Keys) (g : Game) : Game :=
  mkGame (terrain g) (padX g) (padY g) (lander g) (score g) (message g) k.

(** [resetGame], started when [n] draws have been made. *)
Definition resetGame (rnd : Random) (n : nat) (k : Keys) : Game * nat :=
  let (t, n1) := generateTerrain rnd n in
  (mkGame (points t) (terrain_padX t) (terrain_padY t)
          (createLander (rnd n1)) 0 None k,
   S n1).

(** ** The physics tick: [update] *)

(** [Math.cos], [Math.sin] and [Math.PI] have no rational values; the tick is
    defined over any choice of them. *)
Record Trig : Type := mkTrig {
  Math_cos : Q -> Q;
  Math_sin : Q -> Q;
  Math_PI : Q
}.

Section Update.

Variable trig : Trig.

(** Rotation *)
Definition rotate (k : Keys) (l : Lander.t) : Lander.t :=
  let l1 := if ArrowLeft k
            then Lander.set_angle (Lander.angle l - ROTATE_SPEED) l else l in
  if ArrowRight k
  then Lander.set_angle (Lander.angle l1 + ROTATE_SPEED) l1 else l1.

(** [(keys['ArrowUp'] || keys['Space']) && lander.fuel > 0] *)
Definition thrust_on (k : Keys) (l : Lander.t) : bool :=
  (ArrowUp k || Space k) && gtb (Lander.fuel l) 0.

(** Thrust *)
Definition thrust (k : Keys) (l : Lander.t) : Lander.t :=
  let l1 := Lander.set_thrusting (thrust_on k l) l in
  if Lander.thrusting l1 then
    let rad := (Lander.angle l1 - 90) * Math_PI trig / 180 in
    let l2 := Lander.set_vx
                (Lander.vx l1 + Math_cos trig rad * THRUST_POWER) l1 in
    let l3 := Lander.set_vy
                (Lander.vy l2 + Math_sin trig rad * THRUST_POWER) l2 in
    Lander.set_fuel (Math_max 0 (Lander.fuel l3 - 1)) l3
  else l1.

(** Gravity *)
Definition gravity (l : Lander.t) : Lander.t :=
  Lander.set_vy (Lander.vy l + GRAVITY) l.

(** Move *)
Definition move (l : Lander.t) : Lander.t :=
  let l1 := Lander.set_x (Lander.x l + Lander.vx l) l in
  Lander.set_y (Lander.y l1 + Lander.vy l1) l1.

(** Wrap horizontally *)
Definition wrap (l : Lander.t) : Lander.t :=
  let l1 := if ltb (Lander.x l) 0 then Lander.set_x W l else l in
  if gtb (Lander.x l1) W then Lander.set_x 0 l1 else l1.

(** The lander when the position has been integrated, before the wrap. *)
Definition integrated (k : Keys) (l : Lander.t) : Lander.t :=
  move (gravity (thrust k (rotate k l))).

(** The lander at the collision test. *)
Definition at_impact (k : Keys) (l : Lander.t) : Lander.t :=
  wrap (integrated k l).

Definition onPad (g : Game) (l : Lander.t) : bool :=
  geb (Lander.x l) (padX g) && leb (Lander.x l) (padX g + PAD_WIDTH).

Definition angleDiff (l : Lander.t) : Q :=
  let normAngle := rem (rem (Lander.angle l) 360 + 360) 360 in
  Math_min normAngle (360 - normAngle).

Definition safeAngle (l : Lander.t) : bool :=
  leb (angleDiff l) MAX_LAND_ANGLE.

Definition safeSpeed (l : Lander.t) : bool :=
  leb (Math_abs (Lander.vy l)) MAX_LAND_VY
  && leb (Math_abs (Lander.vx l)) MAX_LAND_VX.

(** The branch taken when [landerBottom >= groundY]. *)
Definition touch_down (g : Game) (l : Lander.t) (groundY : Q) : Game :=
  if onPad g l && safeAngle l && safeSpeed l then
    let l1 := Lander.set_landed true l in
    let l2 := Lander.set_y (groundY - 14) l1 in
    let l3 := Lander.set_vx 0 l2 in
    let l4 := Lander.set_vy 0 l3 in
    let speedBonus :=
      Math_round ((MAX_LAND_VY - Math_abs (Lander.vy l4)) * 100) in
    let s := Lander.fuel l4 + speedBonus in
    set_message (mkMessage (LandedSafely s) "#7f7")
      (set_score s (set_lander l4 g))
  else
    let l1 := Lander.set_dead true l in
    let l2 := Lander.set_y (groundY - 14) l1 in
    let m :=
      if negb (onPad g l) then mkMessage MissedThePad "#f77"
      else if negb (safeAngle l) then mkMessage TiltedTooFar "#f77"
      else mkMessage (TooFast (Math_abs (Lander.vy l2))) "#f77" in
    set_message m (set_lander l2 g).

(** Collision with terrain *)
Definition collide (g : Game) (l : Lander.t) : result Game :=
  groundY <- terrainYAt (terrain g) (Lander.x l) ;;
  let landerBottom := Lander.y l + 14 in
  if geb landerBottom groundY
  then Ok (touch_down g l groundY)
  else Ok (set_lander l g).

Definition update (g : Game) : result Game :=
  if Lander.dead (lander g) || Lander.landed (lander g) then Ok g
  else collide g (at_impact (keys g) (lander g)).

(** The frames of the game loop: before each [update] the key handlers
    have set [keys] to the next element of [inputs]. *)
Fixpoint run (inputs : list Keys) (g : Game) : result Game :=
  match inputs with
  | [] => Ok g
  | k :: rest => g1 <- update (set_keys k g) ;; run rest g1
  end.

End Update.

(** Polynomial stand-ins for the trigonometric functions, to run examples. *)
Definition sample_trig : Trig :=
  mkTrig (fun a => 1 - a * a / 2 + a * a * a * a / 24)
         (fun a => a - a * a * a / 6 + a * a * a * a * a / 120)
         (355 # 113).

(** ** Predicates of the statements *)

(** Every number stored in [raw] lies within the clamp's bounds. *)
Definition raw_bounded (a : nat -> num) : Prop :=
  forall i q, a i = Some q -> H * 0.45 <= q /\ q <= H - 20.

(** The lander is neither dead nor landed. *)
Definition active (g : Game) : Prop :=
  Lander.dead (lander g) = false /\ Lander.landed (lander g) = false.

(** The fuel is a whole number, not below zero. *)
Definition whole_fuel (l : Lander.t) (n : Z) : Prop :=
  (0 <= n)%Z /\ Lander.fuel l == inject_Z n.

(** ** Sample inputs *)

(** A small terrain to run the lookup on. *)
Definition ridge : list Point :=
  [mkPoint 0 300; mkPoint 10 320; mkPoint 20 310; mkPoint 30 400].


(** A random source that returns one half at every draw. *)
Definition halves : Random := fun _ => 1 # 2.

Definition no_keys : Keys := mkKeys false false false false.
Definition thrust_key : Keys := mkKeys false false true false.

(** A session on the terrain that constant draws of one half generate: flat
    at height 405, the pad from x = 360 to x = 440. *)
Definition flat_game : Game := fst (resetGame halves 0 no_keys).

(** The lander over the middle of the pad, upright, with no horizontal
    speed, half a unit above contact, falling at 0.975 per frame: gravity
    makes that 1.0 in the next tick, which is the tick of the touchdown. *)
Definition final_approach : Game :=
  set_lander (Lander.mk 400 390.5 0 0.975 0 321 false false false) flat_game.

(** The lander 50 units left of the pad, tilted by 170 degrees, falling
    fast, at the ground. *)
Definition wreck_approach : Game :=
  set_lander (Lander.mk 310 391 0 5 170 321 false false false) flat_game.

(** On the pad with safe speed, tilted by 170 degrees. *)
Definition tilted_approach : Game :=
  set_lander (Lander.mk 400 390.5 0 0.975 170 321 false false false) flat_game.

(** On the pad, upright, falling at 5 per frame after gravity. *)
Definition fast_approach : Game :=
  set_lander (Lander.mk 400 390.5 0 4.975 0 321 false false false) flat_game.

(** High above the terrain at the right edge, drifting right by one half
    per frame. *)
Definition edge_drift : Game :=
  set_lander (Lander.mk W 80 0.5 0.5 0 321 false false false) flat_game.

(** The lander at rest on the pad after a landing. *)
Definition landed_game : Game :=
  set_lander (Lander.mk 400 391 0 0 0 321 false false true) flat_game.

(** A fresh session with a thrust key held. *)
Definition lift_off : Game := set_keys thrust_key flat_game.

(** ** Key events and the game loop *)

Definition STARS : nat := 150.

(** [keys[code] = b], on the entries of [keys] that [update] reads. *)
Definition set_key (code : string) (b : bool) (k : Keys) : Keys :=
  mkKeys (if String.eqb code "ArrowLeft" then b else ArrowLeft k)
         (if String.eqb code "ArrowRight" then b else ArrowRight k)
         (if String.eqb code "ArrowUp" then b else ArrowUp k)
         (if String.eqb code "Space" then b else Space k).

(** The game and the number of draws that [Math.random] has made. *)
Record Session : Type := mkSession { game : Game; made : nat }.

(** The [keydown] listener; the boolean tells whether it called
    [preventDefault]. *)
Definition keydown (rnd : Random) (code : string) (s : Session)
  : Session * bool :=
  let g := set_keys (set_key code true (keys (game s))) (game s) in
  let s1 := if String.eqb code "KeyR"
            then let (g1, n1) := resetGame rnd (made s) (keys g) in
                 mkSession g1 n1
            else mkSession g (made s) in
  (s1,
   existsb (String.eqb code)
           ["ArrowUp"; "ArrowDown"; "ArrowLeft"; "ArrowRight"; "Space"]%string).

(** The [keyup] listener. *)
Definition keyup (code : string) (s : Session) : Session :=
  mkSession (set_keys (set_key code false (keys (game s))) (game s)) (made s).

(** The script up to its first frame: the star field takes three draws per
    star, then [resetGame] runs with no key pressed yet. *)
Definition start (rnd : Random) : Session :=
  let (g, n) := resetGame rnd (3 * STARS) (mkKeys false false false false) in
  mkSession g n.

Section Loop.

Variable trig : Trig.
Variable rnd : Random.

(** One turn of [loop]: [update], then [draw], which leaves the game as it
    is and makes one draw, for the length of the flame, when the lander is
    thrusting.  What [draw] puts on the canvas is not modelled. *)
Definition loop (s : Session) : result Session :=
  g <- update trig (game s) ;;
  Ok (mkSession g (made s + (if Lander.thrusting (lander g) then 1 else 0))).

Inductive Event : Type :=
| KeyDown (code : string)
| KeyUp (code : string)
| AnimationFrame.

Definition handle (e : Event) (s : Session) : result Session :=
  match e with
  | KeyDown code => Ok (fst (keydown rnd code s))
  | KeyUp code => Ok (keyup code s)
  | AnimationFrame => loop s
  end.

(** The session after a sequence of events. *)
Fixpoint play (events : list Event) (s : Session) : result Session :=
  match events with
  | [] => Ok s
  | e :: rest => s1 <- handle e s ;; play rest s1
  end.

End Loop.

(** ** Readouts of the HUD *)

(** The number shown after [ALT]. *)
Definition hud_alt (g : Game) : result Q :=
  groundY <- terrainYAt (terrain g) (Lander.x (lander g)) ;;
  Ok (Math_max 0 (Math_round (groundY - Lander.y (lander g)))).



(** The fill style of the [ANGLE] line. *)
Definition hud_angle_style (g : Game) : string :=
  if leb (angleDiff (lander g)) MAX_LAND_ANGLE
  then "#4c8"%string else "#f84"%string.

(** ** More predicates of the statements *)

(** The landing conditions of [touch_down], as inequalities. *)
Definition safe_touchdown (g : Game) (l : Lander.t) : Prop :=
  padX g <= Lander.x l /\ Lander.x l <= padX g + PAD_WIDTH
  /\ angleDiff l <= MAX_LAND_ANGLE
  /\ Qabs (Lander.vy l) <= MAX_LAND_VY
  /\ Qabs (Lander.vx l) <= MAX_LAND_VX.

(** What holds of the game between any two events of a session. *)
Definition sound_state (g : Game) : Prop :=
  length (terrain g) = 81%nat
  /\ x_increasing (terrain g)
  /\ (forall i p, get (terrain g) i = Some p ->
                  H * 0.45 <= py p /\ py p <= H - 20)
  /\ (160 <= padX g /\ padX g <= 560)
  /\ (0 <= Lander.x (lander g) /\ Lander.x (lander g) <= W)
  /\ (exists groundY,
         terrainYAt (terrain g) (Lander.x (lander g)) = Ok groundY
         /\ Lander.y (lander g) + 14 <= groundY
         /\ (active g \/ Lander.y (lander g) + 14 == groundY))
  /\ (exists n, whole_fuel (lander g) n /\ (n <= 500)%Z)
  /\ Lander.dead (lander g) && Lander.landed (lander g) = false
  /\ (message g = None <-> active g)
  /\ (Lander.landed (lander g) = false -> score g = 0)
  /\ (Lander.landed (lander g) = true ->
      score g == Lander.fuel (lander g) + 200).

(** A source of draws that are not all alike. *)
Definition sawtooth : Random :=
  fun k => inject_Z (Z.of_nat (k mod 7)) / 8.

(** The animation frames among the events, and the presses of the restart
    key. *)
Definition is_frame (e : Event) : bool :=
  match e with
  | AnimationFrame => true
  | _ => false
  end.

Definition restarts (e : Event) : bool :=
  match e with
  | KeyDown code => String.eqb code "KeyR"
  | _ => false
  end.

(** A lander that crashed with the engine on. *)
Definition burning_wreck : Game :=
  set_lander (Lander.mk 310 391 0 5 170 320 true true false) flat_game.

(** ** The height lookup in binary64 arithmetic *)

(** [terrainYAt] once more, with the numbers of the script as they are: IEEE
    754 binary64 values, every operation rounded.  It is used where the result
    depends on that rounding. *)
Module Binary64.

Import PrimFloat.

Record Point : Type := mkPoint { px : float; py : float }.

Definition H : float := 600%float.

Definition get (terrain : list Point) (i : nat) : option Point :=
  nth_error terrain i.

Definition deref (o : option Point) : result Point :=
  match o with
  | Some p => Ok p
  | None => TypeError
  end.

Definition search_step (terrain : list Point) (x : float) (lo hi : nat)
  : result (nat * nat) :=
  let mid := ((lo + hi) / 2)%nat in
  p <- deref (get terrain (mid + 1)) ;;
  if leb (px p) x then Ok ((mid + 1)%nat, hi) else Ok (lo, mid).

Fixpoint search (fuel : nat) (terrain : list Point) (x : float) (lo hi : nat)
  : result nat :=
  if (lo <? hi)%nat then
    match fuel with
    | O => OutOfFuel
    | S fuel' =>
        st <- search_step terrain x lo hi ;;
        search fuel' terrain x (fst st) (snd st)
    end
  else Ok lo.

Definition terrainYAt_fuel (fuel : nat) (terrain : list Point) (x : float)
  : result float :=
  if (length terrain <? 2)%nat then Ok H
  else
    lo <- search fuel terrain x 0 (length terrain - 2) ;;
    p1 <- deref (get terrain lo) ;;
    p2 <- deref (get terrain (Nat.min (lo + 1) (length terrain - 1))) ;;
    if eqb (px p2) (px p1) then Ok (py p1)
    else
      let t := ((x - px p1) / (px p2 - px p1))%float in
      Ok (py p1 + t * (py p2 - py p1))%float.

Definition terrainYAt (terrain : list Point) (x : float) : result float :=
  terrainYAt_fuel (length terrain) terrain x.


(** The sums whose floors are [padX] and [padY] in [generateTerrain] (the
    two hexadecimal literals are the binary64 values of 0.2 and 0.55), the
    largest binary64 value below 1, and the values 1, 480 and 560. *)
Definition padX_sum (r : float) : float :=
  (r * (800 * 0.5) + 800 * 0x1.999999999999ap-3)%float.
Definition padY_sum (r : float) : float :=
  (r * (600 * 0.25) + 600 * 0x1.199999999999ap-1)%float.
Definition below_one : float := 0x1.fffffffffffffp-1%float.
Definition one : float := 1%float.
Definition y_480 : float := 480%float.
Definition x_560 : float := 560%float.



End Binary64.

(** * Properties *)

Ltac break_ifs :=
  repeat match goal with
         | |- context [if ?c then _ else _] => destruct c eqn:?
         end.

(** ** Comparisons and rounding *)

Lemma ltb_lt a b : ltb a b = true <-> a < b.
Proof.
  unfold ltb. rewrite negb_true_iff, <- not_true_iff_false, Qle_bool_iff.
  split; [apply Qnot_le_lt | apply Qlt_not_le].
Qed.

Lemma ltb_ge a b : ltb a b = false <-> b <= a.
Proof.
  unfold ltb. rewrite negb_false_iff. apply Qle_bool_iff.
Qed.

Lemma leb_le a b : leb a b = true <-> a <= b.
Proof. apply Qle_bool_iff. Qed.

Lemma leb_gt a b : leb a b = false <-> b < a.
Proof.
  unfold leb. rewrite <- not_true_iff_false, Qle_bool_iff.
  split; [apply Qnot_le_lt | apply Qlt_not_le].
Qed.

Lemma eqb_eq a b : eqb a b = true <-> a == b.
Proof. apply Qeq_bool_iff. Qed.

Lemma eqb_neq a b : eqb a b = false <-> ~ a == b.
Proof.
  unfold eqb. rewrite <- not_true_iff_false, Qeq_bool_iff. reflexivity.
Qed.

Lemma Math_round_bounds (lo hi : Z) (q : Q) :
  inject_Z lo <= q -> q <= inject_Z hi ->
  inject_Z lo <= Math_round q /\ Math_round q <= inject_Z hi.
Proof.
  intros Hlo Hhi. unfold Math_round. rewrite <- !Zle_Qle. split.
  - rewrite <- (Qfloor_Z lo). apply Qfloor_resp_le. lra.
  - assert (Hfl := Qfloor_le (q + (1 # 2))).
    assert (Hlt : (Qfloor (q + (1 # 2)) < hi + 1)%Z).
    { rewrite Zlt_Qlt, inject_Z_plus. change (inject_Z 1) with 1. lra. }
    lia.
Qed.

(** ** The binary search of [terrainYAt] *)

Lemma midpoint_bounds (lo hi : nat) :
  (lo < hi)%nat -> (lo <= (lo + hi) / 2 < hi)%nat.
Proof.
  intros Hlt.
  assert (Hd := Nat.div_mod_eq (lo + hi) 2).
  assert (Hm := Nat.mod_upper_bound (lo + hi) 2).
  lia.
Qed.

Lemma get_in_range (terrain : list Point) (i : nat) :
  (i < length terrain)%nat -> exists p, get terrain i = Some p.
Proof.
  intros Hi. unfold get.
  destruct (nth_error terrain i) as [p|] eqn:E; [now exists p|].
  apply nth_error_None in E. lia.
Qed.

(** An iteration inside the array reads a defined point and leaves a strictly
    smaller interval inside the old one. *)
Lemma search_step_shrinks (terrain : list Point) (x : Q) (lo hi : nat) :
  (lo < hi)%nat -> (hi + 2 <= length terrain)%nat ->
  exists lo' hi',
    search_step terrain x lo hi = Ok (lo', hi')
    /\ (lo <= lo')%nat /\ (lo' <= hi')%nat /\ (hi' <= hi)%nat
    /\ (hi' - lo' < hi - lo)%nat.
Proof.
  intros Hlt Hhi. unfold search_step.
  destruct (midpoint_bounds lo hi Hlt) as [Hm1 Hm2].
  destruct (get_in_range terrain ((lo + hi) / 2 + 1)) as [p Hp]; [lia|].
  rewrite Hp. cbn [deref bind].
  destruct (leb (px p) x).
  - exists ((lo + hi) / 2 + 1)%nat, hi. repeat split; lia.
  - exists lo, ((lo + hi) / 2)%nat. repeat split; lia.
Qed.

Lemma search_brackets (terrain : list Point) (x : Q) (fuel : nat) :
  forall lo hi,
    (lo <= hi)%nat -> (hi - lo <= fuel)%nat -> (hi + 2 <= length terrain)%nat ->
    exists k, search fuel terrain x lo hi = Ok k /\ brackets terrain x lo hi k.
Proof.
  induction fuel as [|fuel IH]; intros lo hi Hle Hfuel Hhi.
  - assert (lo = hi) by lia. subst hi.
    exists lo. cbn [search]. rewrite Nat.ltb_irrefl.
    split; [reflexivity|]. unfold brackets. intuition lia.
  - cbn [search]. destruct (lo <? hi)%nat eqn:Hlt.
    + apply Nat.ltb_lt in Hlt.
      destruct (midpoint_bounds lo hi Hlt) as [Hm1 Hm2].
      unfold search_step.
      destruct (get_in_range terrain ((lo + hi) / 2 + 1)) as [p Hp]; [lia|].
      rewrite Hp. cbn [deref bind].
      destruct (leb (px p) x) eqn:Hcmp; cbn [bind fst snd].
      * apply leb_le in Hcmp.
        destruct (IH ((lo + hi) / 2 + 1)%nat hi) as (k & Hk & Hr & Hl & Hu);
          try lia.
        exists k. split; [exact Hk|]. repeat split; try lia.
        -- right. destruct Hl as [-> | Hl]; [now exists p | exact Hl].
        -- exact Hu.
      * apply leb_gt in Hcmp.
        destruct (IH lo ((lo + hi) / 2)%nat) as (k & Hk & Hr & Hl & Hu);
          try lia.
        exists k. split; [exact Hk|]. repeat split; try lia.
        -- exact Hl.
        -- right. destruct Hu as [-> | Hu]; [now exists p | exact Hu].
    + apply Nat.ltb_ge in Hlt. assert (lo = hi) by lia. subst hi.
      exists lo. split; [reflexivity|]. unfold brackets. intuition lia.
Qed.

(** Given the segment index the search returns, the rest of [terrainYAt]. *)
Lemma terrainYAt_fuel_segment (terrain : list Point) (x : Q) (fuel k : nat)
      (p1 p2 : Point) :
  (2 <= length terrain)%nat ->
  search fuel terrain x 0 (length terrain - 2) = Ok k ->
  get terrain k = Some p1 -> get terrain (k + 1) = Some p2 ->
  px p1 < px p2 ->
  terrainYAt_fuel fuel terrain x = Ok (interpolate p1 p2 x).
Proof.
  intros Hlen Hs H1 H2 Hlt. unfold terrainYAt_fuel.
  destruct (length terrain <? 2)%nat eqn:E; [apply Nat.ltb_lt in E; lia|].
  rewrite Hs. cbn [bind]. rewrite H1. cbn [bind deref].
  assert (Hk : (k + 1 < length terrain)%nat).
  { apply nth_error_Some. unfold get in H2. rewrite H2. discriminate. }
  rewrite Nat.min_l by lia. rewrite H2. cbn [bind deref].
  assert (Hne : eqb (px p2) (px p1) = false) by (apply eqb_neq; lra).
  rewrite Hne. reflexivity.
Qed.




(** More iterations than the loop uses do not change its result. *)
Lemma search_more_fuel (terrain : list Point) (x : Q) (fuel : nat) :
  forall fuel' lo hi k,
    search fuel terrain x lo hi = Ok k -> (fuel <= fuel')%nat ->
    search fuel' terrain x lo hi = Ok k.
Proof.
  induction fuel as [|fuel IH]; intros fuel' lo hi k Hs Hle.
  - cbn [search] in Hs. destruct (lo <? hi)%nat eqn:Hlt; [discriminate|].
    destruct fuel'; cbn [search]; rewrite Hlt; exact Hs.
  - destruct fuel' as [|fuel']; [lia|].
    cbn [search] in *. destruct (lo <? hi)%nat; [|exact Hs].
    destruct (search_step terrain x lo hi) as [st| |]; cbn [bind] in *;
      try discriminate.
    apply IH; [exact Hs | lia].
Qed.

Lemma terrainYAt_fuel_more (terrain : list Point) (x : Q) (fuel fuel' : nat)
      (v : Q) :
  terrainYAt_fuel fuel terrain x = Ok v -> (fuel <= fuel')%nat ->
  terrainYAt_fuel fuel' terrain x = Ok v.
Proof.
  unfold terrainYAt_fuel. intros Hv Hle.
  destruct (length terrain <? 2)%nat; [exact Hv|].
  destruct (search fuel terrain x 0 (length terrain - 2)) as [k| |] eqn:Hs;
    cbn [bind] in Hv; try discriminate.
  rewrite (search_more_fuel terrain x fuel fuel' _ _ k Hs Hle). exact Hv.
Qed.

Lemma terrainYAt_fuel_total (terrain : list Point) (x : Q) (fuel : nat) :
  (2 <= length terrain)%nat -> (length terrain - 2 <= fuel)%nat ->
  exists v, terrainYAt_fuel fuel terrain x = Ok v.
Proof.
  intros Hlen Hfuel. unfold terrainYAt_fuel.
  destruct (length terrain <? 2)%nat; [now exists H|].
  destruct (search_brackets terrain x fuel 0 (length terrain - 2))
    as (k & Hk & Hr & _); try lia.
  rewrite Hk. cbn [bind].
  destruct (get_in_range terrain k) as [p1 H1]; [lia|].
  destruct (get_in_range terrain (Nat.min (k + 1) (length terrain - 1)))
    as [p2 H2]; [lia|].
  rewrite H1, H2. cbn [bind deref].
  destruct (eqb (px p2) (px p1)); eexists; reflexivity.
Qed.



(** C10: for every terrain array with at least two points and every x, each
    iteration of the binary search inside the array leaves a strictly smaller
    interval, the loop ends and [terrainYAt] returns a value: the same value
    for every number of iterations allowed from [terrain.length - 2] on.
    (Strictly increasing x-coordinates are not needed for this.) *)
Theorem terrainYAt_terminates (terrain : list Point) (x : Q) :
  (2 <= length terrain)%nat ->
  (forall lo hi, (lo < hi)%nat -> (hi + 2 <= length terrain)%nat ->
     exists lo' hi',
       search_step terrain x lo hi = Ok (lo', hi')
       /\ (lo <= lo')%nat /\ (lo' <= hi')%nat /\ (hi' <= hi)%nat
       /\ (hi' - lo' < hi - lo)%nat)
  /\ exists v,
       terrainYAt terrain x = Ok v
       /\ forall fuel, (length terrain - 2 <= fuel)%nat ->
                       terrainYAt_fuel fuel terrain x = Ok v.
Proof.
  intros Hlen. split.
  - intros lo hi. apply search_step_shrinks.
  - destruct (terrainYAt_fuel_total terrain x (length terrain - 2) Hlen)
      as [v Hv]; [lia|].
    exists v. split.
    + apply (terrainYAt_fuel_more terrain x _ _ v Hv). lia.
    + intros fuel Hfuel. exact (terrainYAt_fuel_more terrain x _ _ v Hv Hfuel).
Qed.

Lemma terrainYAt_terminates_witness :
  (2 <= length ridge)%nat
  /\ exists v, terrainYAt ridge 17
               = Ok v
               /\ forall fuel, (length ridge - 2 <= fuel)%nat ->
                               terrainYAt_fuel fuel ridge 17 = Ok v.
Proof.
  assert (Hlen : (2 <= length ridge)%nat) by (cbn; lia).
  split; [exact Hlen|].
  exact (proj2 (terrainYAt_terminates ridge 17 Hlen)).
Defined.




(** ** Lookups outside the terrain *)






(** ** Generated terrain *)

Lemma clamp_bounded (v : num) (q : Q) :
  clamp v = Some q -> H * 0.45 <= q /\ q <= H - 20.
Proof.
  destruct v as [r|]; [|discriminate]. cbn [clamp]. intros [= <-].
  unfold Math_max, Math_min, H. split.
  - apply Q.le_max_l.
  - apply Q.max_lub; [lra | apply Q.le_min_l].
Qed.

Lemma raw_set_bounded (a : nat -> num) (i : nat) (v : num) :
  raw_bounded a -> (forall q, v = Some q -> H * 0.45 <= q /\ q <= H - 20) ->
  raw_bounded (raw_set a i v).
Proof.
  intros Ha Hv j q. unfold raw_set.
  destruct (Nat.eqb j i); [apply Hv | apply Ha].
Qed.

Lemma displace_bounded (rnd : Random) (lo hi : nat) (rough : Q)
      (st : GenState) :
  raw_bounded (raw st) -> raw_bounded (raw (displace rnd lo hi rough st)).
Proof.
  funelim (displace rnd lo hi rough st); intros Hb.
  - exact Hb.
  - match goal with
    | IH2 : forall _ : raw_bounded _, raw_bounded (raw (displace _ _ hi _ _)) |- _ =>
        apply IH2
    end.
    match goal with
    | IH1 : forall _ : raw_bounded _, raw_bounded (raw (displace _ lo _ _ _)) |- _ =>
        apply IH1
    end.
    cbn [raw]. apply raw_set_bounded; [exact Hb | apply clamp_bounded].
Qed.

Lemma Math_floor_bounds (lo hi : Z) (q : Q) :
  inject_Z lo <= q -> q < inject_Z hi + 1 ->
  inject_Z lo <= Math_floor q /\ Math_floor q <= inject_Z hi.
Proof.
  intros Hlo Hhi. unfold Math_floor. rewrite <- !Zle_Qle. split.
  - rewrite <- (Qfloor_Z lo). apply Qfloor_resp_le. exact Hlo.
  - assert (Hfl := Qfloor_le q).
    assert (Hlt : (Qfloor q < hi + 1)%Z).
    { rewrite Zlt_Qlt, inject_Z_plus. change (inject_Z 1) with 1. lra. }
    lia.
Qed.

(** In exact arithmetic [padY] is drawn from 330 to 479: the band from 55%
    to 80% of the height. *)
Lemma padY_bounds (r : Q) :
  0 <= r -> r < 1 ->
  330 <= Math_floor (r * (H * 0.25) + H * 0.55)
  /\ Math_floor (r * (H * 0.25) + H * 0.55) <= 479.
Proof.
  intros H0 H1. apply (Math_floor_bounds 330 479); unfold H.
  - change (inject_Z 330) with 330. lra.
  - change (inject_Z 479) with 479. lra.
Qed.

Lemma round_or_bounded (v : num) (padY : Q) :
  (forall q, v = Some q -> H * 0.45 <= q /\ q <= H - 20) ->
  330 <= padY -> padY <= 479 ->
  H * 0.45 <= round_or v padY /\ round_or v padY <= H.
Proof.
  intros Hv Hp1 Hp2. unfold round_or.
  destruct v as [q|]; [|unfold H; lra].
  destruct (eqb (Math_round q) 0); [unfold H; lra|].
  destruct (Hv q eq_refl) as [Hq1 Hq2]. unfold H in *.
  destruct (Math_round_bounds 270 580 q) as [Hr1 Hr2].
  - change (inject_Z 270) with 270. lra.
  - change (inject_Z 580) with 580. lra.
  - change (inject_Z 270) with 270 in Hr1.
    change (inject_Z 580) with 580 in Hr2. lra.
Qed.

Lemma generateTerrain_length (rnd : Random) (n : nat) :
  length (points (fst (generateTerrain rnd n))) = 81%nat.
Proof.
  unfold generateTerrain. cbn [fst points].
  rewrite length_map, length_seq. reflexivity.
Qed.

(** C8: for draws in [0, 1), every one of the 81 points of a generated
    terrain, the two end columns included, has its y within
    [H * 0.45, H]. *)
Theorem generateTerrain_heights (rnd : Random) (n : nat) :
  (forall k, 0 <= rnd k /\ rnd k < 1) ->
  length (points (fst (generateTerrain rnd n))) = 81%nat
  /\ forall p, In p (points (fst (generateTerrain rnd n))) ->
               H * 0.45 <= py p /\ py p <= H.
Proof.
  intros Hrnd. split; [apply generateTerrain_length|].
  intros p Hin. unfold generateTerrain in Hin. cbn [fst points] in Hin.
  destruct (padY_bounds (rnd (n + 1)%nat)) as [Hp1 Hp2];
    try apply (Hrnd (n + 1)%nat).
  set (padY := Math_floor (rnd (n + 1)%nat * (H * 0.25) + H * 0.55)) in *.
  apply in_map_iff in Hin as (i & <- & _). unfold terrain_point.
  match goal with |- context [if ?c then _ else _] => destruct c end;
    cbn [py].
  - unfold H. lra.
  - apply round_or_bounded; [|exact Hp1|exact Hp2].
    apply displace_bounded. cbn [raw].
    destruct (Hrnd (n + 2)%nat) as [Ha1 Ha2].
    destruct (Hrnd (n + 3)%nat) as [Hb1 Hb2].
    apply raw_set_bounded; [apply raw_set_bounded|].
    + intros j q. discriminate.
    + intros q [= <-]. unfold H. lra.
    + intros q [= <-]. unfold H. lra.
Qed.

Lemma generateTerrain_heights_witness :
  (forall k, 0 <= halves k /\ halves k < 1)
  /\ length (points (fst (generateTerrain halves 0))) = 81%nat
  /\ forall p, In p (points (fst (generateTerrain halves 0))) ->
               H * 0.45 <= py p /\ py p <= H.
Proof.
  assert (Hrnd : forall k, 0 <= halves k /\ halves k < 1).
  { intros k. unfold halves. split; lra. }
  split; [exact Hrnd|].
  exact (generateTerrain_heights halves 0 Hrnd).
Defined.

(** C4 as claimed fails: when every draw is one half, [padX] is 360 and
    [padY] is 405, and the first point, at x = 0 and so outside the pad, is
    seeded with no jitter and has y = 405 too. *)
Lemma generateTerrain_pad_only_counterexample :
  terrain_padX (fst (generateTerrain halves 0)) == 360
  /\ terrain_padY (fst (generateTerrain halves 0)) == 405
  /\ nth_error (points (fst (generateTerrain halves 0))) 0
     = Some (mkPoint 0 405)
  /\ ~ (terrain_padX (fst (generateTerrain halves 0)) <= 0
        /\ 0 <= terrain_padX (fst (generateTerrain halves 0)) + PAD_WIDTH)
  /\ py (mkPoint 0 405) == terrain_padY (fst (generateTerrain halves 0)).
Proof.
  split; [vm_compute; reflexivity|].
  split; [vm_compute; reflexivity|].
  split; [vm_compute; reflexivity|].
  split; [|vm_compute; reflexivity].
  intros [Hlo _]. revert Hlo. apply Qlt_not_le. vm_compute. reflexivity.
Qed.

(** The points of a generated terrain are the columns 0, 10, 20, ... *)
Lemma generateTerrain_get (rnd : Random) (n i : nat) (p : Point) :
  get (points (fst (generateTerrain rnd n))) i = Some p ->
  (i < 81)%nat /\ px p = inject_Z (Z.of_nat i) * step.
Proof.
  unfold generateTerrain, get. cbn [fst points].
  rewrite nth_error_map, nth_error_seq.
  change (Z.to_nat (Qceiling (W / step)) + 1)%nat with 81%nat.
  destruct (i <? 81)%nat eqn:Hi; cbn [option_map]; [|discriminate].
  intros [= <-]. apply Nat.ltb_lt in Hi. split; [exact Hi|].
  unfold terrain_point. break_ifs; reflexivity.
Qed.

(** A generated terrain is x-sorted, as the lookup needs it. *)
Lemma generateTerrain_increasing (rnd : Random) (n : nat) :
  x_increasing (points (fst (generateTerrain rnd n))).
Proof.
  intros i j p q Hij Hp Hq.
  apply generateTerrain_get in Hp as [_ ->].
  apply generateTerrain_get in Hq as [_ ->].
  assert (Hz : inject_Z (Z.of_nat i) < inject_Z (Z.of_nat j)).
  { rewrite <- Zlt_Qlt. lia. }
  unfold step. lra.
Qed.

(** A fresh session: an active lander with 500 units of fuel over a sorted
    terrain of 81 points, no score and no message. *)
Lemma resetGame_ready (rnd : Random) (n : nat) (k : Keys) :
  active (fst (resetGame rnd n k))
  /\ whole_fuel (lander (fst (resetGame rnd n k))) 500
  /\ length (terrain (fst (resetGame rnd n k))) = 81%nat
  /\ x_increasing (terrain (fst (resetGame rnd n k)))
  /\ score (fst (resetGame rnd n k)) = 0
  /\ message (fst (resetGame rnd n k)) = None.
Proof.
  assert (Hlen := generateTerrain_length rnd n).
  assert (Hinc := generateTerrain_increasing rnd n).
  unfold resetGame. destruct (generateTerrain rnd n) as [t n1].
  cbn [fst] in *. cbn [fst terrain lander score message].
  split; [split; reflexivity|].
  split; [split; [lia | reflexivity]|].
  split; [exact Hlen|]. split; [exact Hinc|]. split; reflexivity.
Qed.

(** ** The tick *)

Lemma terrainYAt_total (terrain : list Point) (x : Q) :
  exists v, terrainYAt terrain x = Ok v.
Proof.
  destruct (le_lt_dec 2 (length terrain)) as [Hlen | Hlen].
  - apply terrainYAt_fuel_total; [exact Hlen | lia].
  - exists H. unfold terrainYAt, terrainYAt_fuel.
    apply Nat.ltb_lt in Hlen. rewrite Hlen. reflexivity.
Qed.

Section Tick.

Variable trig : Trig.

Lemma update_active (g : Game) :
  active g -> update trig g = collide g (at_impact trig (keys g) (lander g)).
Proof.
  intros [Hd Hl]. unfold update. rewrite Hd, Hl. reflexivity.
Qed.

Lemma collide_total (g : Game) (l : Lander.t) :
  exists g', collide g l = Ok g'.
Proof.
  unfold collide. destruct (terrainYAt_total (terrain g) (Lander.x l)) as [v Hv].
  rewrite Hv. cbn [bind].
  destruct (geb (Lander.y l + 14) v); eexists; reflexivity.
Qed.

Lemma update_total (g : Game) : exists g', update trig g = Ok g'.
Proof.
  unfold update.
  destruct (Lander.dead (lander g) || Lander.landed (lander g)).
  - now exists g.
  - apply collide_total.
Qed.

Lemma run_total (inputs : list Keys) :
  forall g, exists g', run trig inputs g = Ok g'.
Proof.
  induction inputs as [|k rest IH]; intros g; cbn [run].
  - now exists g.
  - destruct (update_total (set_keys k g)) as [g1 H1]. rewrite H1. cbn [bind].
    apply IH.
Qed.

(** A contact turns the lander into a landed or a dead one, never both. *)
Lemma touch_down_terminal (g : Game) (l : Lander.t) (groundY : Q) :
  Lander.dead l = false -> Lander.landed l = false ->
  Lander.dead (lander (touch_down g l groundY))
  || Lander.landed (lander (touch_down g l groundY)) = true
  /\ Lander.dead (lander (touch_down g l groundY))
     = negb (Lander.landed (lander (touch_down g l groundY))).
Proof.
  intros Hd Hl. unfold touch_down.
  destruct (onPad g l && safeAngle l && safeSpeed l); cbn; rewrite ?Hd, ?Hl;
    split; reflexivity.
Qed.

(** What a landing does to the state: the branch of [touch_down] taken when
    all three conditions hold. *)
Lemma touch_down_landed (g : Game) (l : Lander.t) (groundY : Q) :
  onPad g l && safeAngle l && safeSpeed l = true ->
  Lander.landed (lander (touch_down g l groundY)) = true
  /\ Lander.vx (lander (touch_down g l groundY)) = 0
  /\ Lander.vy (lander (touch_down g l groundY)) = 0
  /\ Lander.fuel (lander (touch_down g l groundY)) = Lander.fuel l
  /\ score (touch_down g l groundY) == Lander.fuel l + 200
  /\ message (touch_down g l groundY)
     = Some (mkMessage (LandedSafely (score (touch_down g l groundY))) "#7f7").
Proof.
  intros Hc. unfold touch_down. rewrite Hc. cbn.
  repeat split; reflexivity.
Qed.

End Tick.

Section Outcome.

Variable trig : Trig.

(** *** Stages of the tick *)

Lemma wrap_frame (l : Lander.t) :
  Lander.y (wrap l) = Lander.y l /\ Lander.vx (wrap l) = Lander.vx l
  /\ Lander.vy (wrap l) = Lander.vy l /\ Lander.angle (wrap l) = Lander.angle l
  /\ Lander.fuel (wrap l) = Lander.fuel l
  /\ Lander.thrusting (wrap l) = Lander.thrusting l.
Proof.
  unfold wrap. break_ifs; cbn; repeat split; reflexivity.
Qed.

Lemma wrap_x (l : Lander.t) :
  (Lander.x l < 0 -> Lander.x (wrap l) = W)
  /\ (W < Lander.x l -> Lander.x (wrap l) = 0)
  /\ (0 <= Lander.x l -> Lander.x l <= W -> Lander.x (wrap l) = Lander.x l).
Proof.
  unfold wrap, gtb.
  destruct (ltb (Lander.x l) 0) eqn:E1; cbn [Lander.x Lander.set_x].
  - apply ltb_lt in E1.
    assert (E2 : ltb W W = false) by reflexivity. rewrite E2.
    cbn [Lander.x Lander.set_x]. unfold W in *.
    repeat split; intros; try reflexivity; lra.
  - apply ltb_ge in E1.
    destruct (ltb W (Lander.x l)) eqn:E2; cbn [Lander.x Lander.set_x].
    + apply ltb_lt in E2. repeat split; intros; try reflexivity; lra.
    + apply ltb_ge in E2. repeat split; intros; try reflexivity; lra.
Qed.

Lemma wrap_range (l : Lander.t) :
  0 <= Lander.x (wrap l) /\ Lander.x (wrap l) <= W.
Proof.
  destruct (wrap_x l) as (Hneg & Hbig & Hmid).
  destruct (Qlt_le_dec (Lander.x l) 0) as [Hlt | Hge].
  - rewrite (Hneg Hlt). unfold W. lra.
  - destruct (Qlt_le_dec W (Lander.x l)) as [Hgt | Hle].
    + rewrite (Hbig Hgt). unfold W. lra.
    + rewrite (Hmid Hge Hle). split; assumption.
Qed.

Lemma rotate_frame (k : Keys) (l : Lander.t) :
  Lander.x (rotate k l) = Lander.x l /\ Lander.vx (rotate k l) = Lander.vx l
  /\ Lander.vy (rotate k l) = Lander.vy l
  /\ Lander.fuel (rotate k l) = Lander.fuel l.
Proof.
  unfold rotate. break_ifs; cbn; repeat split; reflexivity.
Qed.

(** The thrust stage: the flag, the fuel and the velocity. *)
Lemma thrust_spec (k : Keys) (l : Lander.t) :
  Lander.thrusting (thrust trig k l)
  = (ArrowUp k || Space k) && gtb (Lander.fuel l) 0
  /\ (Lander.thrusting (thrust trig k l) = true ->
      Lander.fuel (thrust trig k l) = Math_max 0 (Lander.fuel l - 1)
      /\ Lander.vx (thrust trig k l)
         = Lander.vx l
           + Math_cos trig ((Lander.angle l - 90) * Math_PI trig / 180)
             * THRUST_POWER
      /\ Lander.vy (thrust trig k l)
         = Lander.vy l
           + Math_sin trig ((Lander.angle l - 90) * Math_PI trig / 180)
             * THRUST_POWER)
  /\ (Lander.thrusting (thrust trig k l) = false ->
      Lander.fuel (thrust trig k l) = Lander.fuel l
      /\ Lander.vx (thrust trig k l) = Lander.vx l
      /\ Lander.vy (thrust trig k l) = Lander.vy l).
Proof.
  unfold thrust, thrust_on. cbn [Lander.thrusting Lander.set_thrusting].
  destruct ((ArrowUp k || Space k) && gtb (Lander.fuel l) 0); cbn.
  - repeat split; intros; try reflexivity; discriminate.
  - repeat split; intros; try reflexivity; discriminate.
Qed.

(** From the thrust stage to the collision test the fuel and the flag stay,
    gravity is added to [vy], and [vx] stays. *)
Lemma at_impact_after_thrust (k : Keys) (l : Lander.t) :
  Lander.fuel (at_impact trig k l) = Lander.fuel (thrust trig k (rotate k l))
  /\ Lander.thrusting (at_impact trig k l)
     = Lander.thrusting (thrust trig k (rotate k l))
  /\ Lander.vx (at_impact trig k l) = Lander.vx (thrust trig k (rotate k l))
  /\ Lander.vy (at_impact trig k l)
     = Lander.vy (thrust trig k (rotate k l)) + GRAVITY.
Proof.
  unfold at_impact, integrated.
  destruct (wrap_frame (move (gravity (thrust trig k (rotate k l)))))
    as (_ & Hvx & Hvy & _ & Hf & Ht).
  rewrite Hvx, Hvy, Hf, Ht. cbn. repeat split; reflexivity.
Qed.

Lemma touch_down_frame (g : Game) (l : Lander.t) (groundY : Q) :
  Lander.x (lander (touch_down g l groundY)) = Lander.x l
  /\ Lander.fuel (lander (touch_down g l groundY)) = Lander.fuel l
  /\ Lander.thrusting (lander (touch_down g l groundY)) = Lander.thrusting l.
Proof.
  unfold touch_down. break_ifs; cbn; repeat split; reflexivity.
Qed.

Lemma collide_frame (g g' : Game) (l : Lander.t) :
  collide g l = Ok g' ->
  Lander.x (lander g') = Lander.x l
  /\ Lander.fuel (lander g') = Lander.fuel l
  /\ Lander.thrusting (lander g') = Lander.thrusting l.
Proof.
  unfold collide.
  destruct (terrainYAt (terrain g) (Lander.x l)) as [v| |]; cbn [bind];
    try discriminate.
  destruct (geb (Lander.y l + 14) v); intros [= <-].
  - apply touch_down_frame.
  - cbn. repeat split; reflexivity.
Qed.

(** A contact: the tick of an active lander whose legs have reached the
    ground runs [touch_down] on the lander as it is at the collision test. *)
Lemma update_contact (g : Game) (groundY : Q) :
  active g ->
  terrainYAt (terrain g)
    (Lander.x (at_impact trig (keys g) (lander g))) = Ok groundY ->
  geb (Lander.y (at_impact trig (keys g) (lander g)) + 14) groundY = true ->
  update trig g
  = Ok (touch_down g (at_impact trig (keys g) (lander g)) groundY).
Proof.
  intros Hact Hg Hc. rewrite (update_active trig g Hact). unfold collide.
  rewrite Hg. cbn [bind]. rewrite Hc. reflexivity.
Qed.

End Outcome.

Section Claims.

Variable trig : Trig.

(** *** Horizontal wrap *)

(** C2, as the script has it: in a tick of an active lander, an integrated x
    below 0 is replaced by W and an integrated x above W is replaced by 0
    (the overshoot is dropped), an x within [0, W] is kept, and after the
    tick x lies within [0, W]. *)
Theorem update_wraps_to_edge (g : Game) :
  active g ->
  exists g',
    update trig g = Ok g'
    /\ (Lander.x (integrated trig (keys g) (lander g)) < 0 ->
        Lander.x (lander g') = W)
    /\ (W < Lander.x (integrated trig (keys g) (lander g)) ->
        Lander.x (lander g') = 0)
    /\ (0 <= Lander.x (integrated trig (keys g) (lander g)) ->
        Lander.x (integrated trig (keys g) (lander g)) <= W ->
        Lander.x (lander g')
        = Lander.x (integrated trig (keys g) (lander g)))
    /\ 0 <= Lander.x (lander g') /\ Lander.x (lander g') <= W.
Proof.
  intros Hact. destruct (update_total trig g) as [g' Hg']. exists g'.
  split; [exact Hg'|].
  rewrite (update_active trig g Hact) in Hg'.
  destruct (collide_frame g g' _ Hg') as (Hx & _). rewrite Hx.
  unfold at_impact.
  destruct (wrap_x (integrated trig (keys g) (lander g))) as (H1 & H2 & H3).
  destruct (wrap_range (integrated trig (keys g) (lander g))) as [H4 H5].
  repeat split; assumption.
Qed.

(** *** Outcome of a contact *)

(** C6: when an active lander's legs reach the ground and a landing
    condition fails, the lander is dead and the message is chosen by the
    first failing condition in the order on pad, safe angle, safe speed:
    off the pad it is the missed-pad message whatever the angle and speed;
    on the pad with an unsafe angle it is the tilted message; on the pad
    with a safe angle it is the too-fast message, which carries |vy| of the
    lander at the collision test. *)
Theorem crash_precedence (g : Game) (groundY : Q) :
  active g ->
  terrainYAt (terrain g)
    (Lander.x (at_impact trig (keys g) (lander g))) = Ok groundY ->
  geb (Lander.y (at_impact trig (keys g) (lander g)) + 14) groundY = true ->
  onPad g (at_impact trig (keys g) (lander g))
  && safeAngle (at_impact trig (keys g) (lander g))
  && safeSpeed (at_impact trig (keys g) (lander g)) = false ->
  exists g',
    update trig g = Ok g'
    /\ Lander.dead (lander g') = true
    /\ Lander.landed (lander g') = false
    /\ Lander.vx (lander g') = Lander.vx (at_impact trig (keys g) (lander g))
    /\ Lander.vy (lander g') = Lander.vy (at_impact trig (keys g) (lander g))
    /\ (onPad g (at_impact trig (keys g) (lander g)) = false ->
        message g' = Some (mkMessage MissedThePad "#f77"))
    /\ (onPad g (at_impact trig (keys g) (lander g)) = true ->
        safeAngle (at_impact trig (keys g) (lander g)) = false ->
        message g' = Some (mkMessage TiltedTooFar "#f77"))
    /\ (onPad g (at_impact trig (keys g) (lander g)) = true ->
        safeAngle (at_impact trig (keys g) (lander g)) = true ->
        safeSpeed (at_impact trig (keys g) (lander g)) = false
        /\ message g'
           = Some (mkMessage
                     (TooFast
                        (Math_abs
                           (Lander.vy (at_impact trig (keys g) (lander g)))))
                     "#f77")).
Proof.
  intros Hact Hg Hc Hfail.
  exists (touch_down g (at_impact trig (keys g) (lander g)) groundY).
  split; [apply update_contact; assumption|].
  destruct Hact as [_ Hl].
  assert (Hl' : Lander.landed (at_impact trig (keys g) (lander g)) = false).
  { unfold at_impact, integrated, wrap, move, gravity, thrust, rotate.
    break_ifs; cbn; exact Hl. }
  set (l := at_impact trig (keys g) (lander g)) in *.
  unfold touch_down. rewrite Hfail.
  destruct (onPad g l) eqn:Hp, (safeAngle l) eqn:Ha, (safeSpeed l) eqn:Hs;
    try discriminate; cbn;
    repeat split; try reflexivity; try exact Hl'; intros; discriminate.
Qed.

(** *** Terminal states *)

Lemma run_terminal (inputs : list Keys) :
  forall g,
    Lander.dead (lander g) = true \/ Lander.landed (lander g) = true ->
    exists g',
      run trig inputs g = Ok g'
      /\ lander g' = lander g /\ score g' = score g
      /\ message g' = message g /\ terrain g' = terrain g
      /\ padX g' = padX g /\ padY g' = padY g.
Proof.
  induction inputs as [|k rest IH]; intros g Hterm; cbn [run].
  - exists g. repeat split; reflexivity.
  - assert (Hu : update trig (set_keys k g) = Ok (set_keys k g)).
    { unfold update. cbn [lander set_keys].
      destruct Hterm as [-> | ->]; [reflexivity | now rewrite orb_true_r]. }
    rewrite Hu. cbn [bind].
    destruct (IH (set_keys k g)) as (g' & Hr & Hrest); [exact Hterm|].
    exists g'. split; [exact Hr | exact Hrest].
Qed.

(** C7: once the lander is landed or dead, a tick returns the state as it
    is, whatever keys are held: x, y, vx, vy, fuel and angle keep their
    values and no message or score is written; the same holds over any
    number of further ticks. *)
Theorem update_terminal_noop (g : Game) :
  Lander.dead (lander g) = true \/ Lander.landed (lander g) = true ->
  (forall k, update trig (set_keys k g) = Ok (set_keys k g))
  /\ forall inputs,
       exists g',
         run trig inputs g = Ok g'
         /\ lander g' = lander g /\ score g' = score g
         /\ message g' = message g.
Proof.
  intros Hterm. split.
  - intros k. unfold update. cbn [lander set_keys].
    destruct Hterm as [-> | ->]; [reflexivity | now rewrite orb_true_r].
  - intros inputs.
    destruct (run_terminal inputs g Hterm) as (g' & Hr & Hl & Hs & Hm & _).
    exists g'. repeat split; assumption.
Qed.

End Claims.

Section Fuel.

Variable trig : Trig.

Lemma whole_fuel_positive (l : Lander.t) (n : Z) :
  whole_fuel l n -> gtb (Lander.fuel l) 0 = true ->
  (1 <= n)%Z /\ Math_max 0 (Lander.fuel l - 1) == inject_Z (n - 1)
  /\ Math_max 0 (Lander.fuel l - 1) == Lander.fuel l - 1.
Proof.
  intros [Hn Hf] Hpos. unfold gtb in Hpos. apply ltb_lt in Hpos.
  assert (Hn1 : (0 < n)%Z).
  { rewrite Zlt_Qlt. change (inject_Z 0) with 0. lra. }
  assert (H1 : 1 <= inject_Z n).
  { change 1 with (inject_Z 1). rewrite <- Zle_Qle. lia. }
  assert (Hmax : Math_max 0 (Lander.fuel l - 1) == Lander.fuel l - 1).
  { unfold Math_max. apply Q.max_r. lra. }
  split; [lia|]. split; [|exact Hmax].
  rewrite Hmax. unfold Z.sub. rewrite inject_Z_plus.
  change (inject_Z (- (1))) with (- (1)). lra.
Qed.

(** The fuel and the thrust of one tick of an active lander. *)
Lemma update_thrust (g : Game) (n : Z) :
  active g -> whole_fuel (lander g) n ->
  exists g',
    update trig g = Ok g'
    /\ Lander.thrusting (lander g')
       = (ArrowUp (keys g) || Space (keys g))
         && gtb (Lander.fuel (lander g)) 0
    /\ (Lander.thrusting (lander g') = true ->
        Lander.fuel (lander g') == Lander.fuel (lander g) - 1
        /\ whole_fuel (lander g') (n - 1)
        /\ Lander.vx (at_impact trig (keys g) (lander g))
           = Lander.vx (lander g)
             + Math_cos trig
                 ((Lander.angle (rotate (keys g) (lander g)) - 90)
                  * Math_PI trig / 180)
               * THRUST_POWER
        /\ Lander.vy (at_impact trig (keys g) (lander g))
           = Lander.vy (lander g)
             + Math_sin trig
                 ((Lander.angle (rotate (keys g) (lander g)) - 90)
                  * Math_PI trig / 180)
               * THRUST_POWER
             + GRAVITY)
    /\ (Lander.thrusting (lander g') = false ->
        Lander.fuel (lander g') = Lander.fuel (lander g)
        /\ Lander.vx (at_impact trig (keys g) (lander g))
           = Lander.vx (lander g)
        /\ Lander.vy (at_impact trig (keys g) (lander g))
           = Lander.vy (lander g) + GRAVITY).
Proof.
  intros Hact Hw. destruct (update_total trig g) as [g' Hg']. exists g'.
  split; [exact Hg'|].
  rewrite (update_active trig g Hact) in Hg'.
  destruct (collide_frame g g' _ Hg') as (_ & Hf & Ht).
  destruct (at_impact_after_thrust trig (keys g) (lander g))
    as (Hf2 & Ht2 & Hvx & Hvy).
  destruct (rotate_frame (keys g) (lander g)) as (_ & Rvx & Rvy & Rf).
  destruct (thrust_spec trig (keys g) (rotate (keys g) (lander g)))
    as (Tflag & Ton & Toff).
  rewrite Rf in Tflag.
  rewrite Ht, Ht2, Hf, Hf2, Hvx, Hvy. split; [exact Tflag|]. split.
  - intros Hon. destruct (Ton Hon) as (Tf & Tvx & Tvy).
    rewrite Tf, Tvx, Tvy, Rf, Rvx, Rvy.
    rewrite Hon in Tflag. symmetry in Tflag.
    apply andb_true_iff in Tflag as [_ Hpos].
    destruct (whole_fuel_positive (lander g) n Hw Hpos) as (Hn & Hz & Hm).
    split; [exact Hm|]. split; [|split; reflexivity].
    split; [lia|]. cbn beta. rewrite Hf, Hf2, Tf, Rf. exact Hz.
  - intros Hoff. destruct (Toff Hoff) as (Tf & Tvx & Tvy).
    rewrite Tf, Tvx, Tvy, Rf, Rvx, Rvy. repeat split; reflexivity.
Qed.

(** One tick keeps the fuel a whole number, not below zero, and does not
    raise it. *)
Lemma update_whole_fuel (g g' : Game) (n : Z) :
  update trig g = Ok g' -> whole_fuel (lander g) n ->
  exists n', whole_fuel (lander g') n' /\ (n' <= n)%Z.
Proof.
  intros Hu Hw.
  destruct (Lander.dead (lander g) || Lander.landed (lander g)) eqn:Hterm.
  - unfold update in Hu. rewrite Hterm in Hu. injection Hu as <-.
    exists n. split; [exact Hw | lia].
  - apply orb_false_iff in Hterm.
    destruct (update_thrust g n Hterm Hw) as (g1 & Hg1 & _ & Hon & Hoff).
    rewrite Hu in Hg1. injection Hg1 as <-.
    destruct (Lander.thrusting (lander g')).
    + destruct (Hon eq_refl) as (_ & Hw' & _). exists (n - 1)%Z.
      split; [exact Hw' | lia].
    + destruct (Hoff eq_refl) as (Hf & _). exists n.
      split; [|lia]. destruct Hw as [Hn Hq]. split; [exact Hn|].
      rewrite Hf. exact Hq.
Qed.

Lemma run_whole_fuel (inputs : list Keys) :
  forall g n,
    whole_fuel (lander g) n ->
    exists g' n',
      run trig inputs g = Ok g' /\ whole_fuel (lander g') n' /\ (n' <= n)%Z.
Proof.
  induction inputs as [|k rest IH]; intros g n Hw; cbn [run].
  - exists g, n. repeat split; try apply Hw. lia.
  - destruct (update_total trig (set_keys k g)) as [g1 H1].
    rewrite H1. cbn [bind].
    destruct (update_whole_fuel (set_keys k g) g1 n H1 Hw) as (n1 & Hw1 & Hle1).
    destruct (IH g1 n1 Hw1) as (g' & n' & Hr & Hw' & Hle').
    exists g', n'. repeat split; try apply Hw'; [exact Hr | lia].
Qed.

(** C9: in a tick of an active lander whose fuel is a whole number not
    below zero, the lander thrusts exactly when a thrust key is held and
    the fuel is above 0; a thrusting tick adds the thrust to the velocity
    and takes exactly 1 from the fuel, a tick without thrust leaves the
    fuel and adds only gravity; and over any number of ticks the fuel stays
    a whole number not below zero and never rises. *)
Theorem fuel_discipline (g : Game) (n : Z) :
  whole_fuel (lander g) n ->
  (active g ->
   exists g',
     update trig g = Ok g'
     /\ Lander.thrusting (lander g')
        = (ArrowUp (keys g) || Space (keys g))
          && gtb (Lander.fuel (lander g)) 0
     /\ (Lander.thrusting (lander g') = true ->
         Lander.fuel (lander g') == Lander.fuel (lander g) - 1
         /\ whole_fuel (lander g') (n - 1)
         /\ Lander.vx (at_impact trig (keys g) (lander g))
            = Lander.vx (lander g)
              + Math_cos trig
                  ((Lander.angle (rotate (keys g) (lander g)) - 90)
                   * Math_PI trig / 180)
                * THRUST_POWER
         /\ Lander.vy (at_impact trig (keys g) (lander g))
            = Lander.vy (lander g)
              + Math_sin trig
                  ((Lander.angle (rotate (keys g) (lander g)) - 90)
                   * Math_PI trig / 180)
                * THRUST_POWER
              + GRAVITY)
     /\ (Lander.thrusting (lander g') = false ->
         Lander.fuel (lander g') = Lander.fuel (lander g)
         /\ Lander.vx (at_impact trig (keys g) (lander g))
            = Lander.vx (lander g)
         /\ Lander.vy (at_impact trig (keys g) (lander g))
            = Lander.vy (lander g) + GRAVITY))
  /\ (forall inputs,
        exists g' n',
          run trig inputs g = Ok g'
          /\ whole_fuel (lander g') n' /\ (n' <= n)%Z).
Proof.
  intros Hw. split.
  - intros Hact. exact (update_thrust g n Hact Hw).
  - intros inputs. exact (run_whole_fuel inputs g n Hw).
Qed.

End Fuel.

Section Landing.

Variable trig : Trig.

(** A landing: the bonus is computed when [vy] is already 0, so the score is
    the fuel plus 200 whatever the speed of the touchdown was. *)
Lemma landing_score (g : Game) (groundY : Q) :
  active g ->
  terrainYAt (terrain g)
    (Lander.x (at_impact trig (keys g) (lander g))) = Ok groundY ->
  geb (Lander.y (at_impact trig (keys g) (lander g)) + 14) groundY = true ->
  onPad g (at_impact trig (keys g) (lander g))
  && safeAngle (at_impact trig (keys g) (lander g))
  && safeSpeed (at_impact trig (keys g) (lander g)) = true ->
  exists g',
    update trig g = Ok g'
    /\ Lander.landed (lander g') = true
    /\ Lander.vx (lander g') = 0 /\ Lander.vy (lander g') = 0
    /\ score g' == Lander.fuel (at_impact trig (keys g) (lander g)) + 200
    /\ message g' = Some (mkMessage (LandedSafely (score g')) "#7f7").
Proof.
  intros Hact Hg Hc Hsafe.
  exists (touch_down g (at_impact trig (keys g) (lander g)) groundY).
  split; [apply update_contact; assumption|].
  destruct (touch_down_landed g _ groundY Hsafe)
    as (Hl & Hvx & Hvy & _ & Hs & Hm).
  repeat split; assumption.
Qed.

(** C1 fails on the script: a lander over the middle of the pad, upright,
    with no horizontal speed, whose vertical speed at the collision test is
    1.0, lands with [vx = vy = 0], and with 321 units of fuel its score is
    521, not the 421 that the speed at impact would give. *)
Theorem landing_score_at_unit_speed :
  Lander.vy (at_impact trig (keys final_approach) (lander final_approach)) == 1
  /\ exists g',
       update trig final_approach = Ok g'
       /\ Lander.landed (lander g') = true
       /\ Lander.vx (lander g') = 0 /\ Lander.vy (lander g') = 0
       /\ Lander.fuel (lander g') == 321
       /\ score g' == 321 + 200
       /\ 321 + Math_round ((MAX_LAND_VY - Math_abs 1) * 100) == 421
       /\ ~ score g' == 321 + Math_round ((MAX_LAND_VY - Math_abs 1) * 100).
Proof.
  split; [vm_compute; reflexivity|].
  destruct (landing_score final_approach 405.0) as (g' & Hu & Hl & Hvx & Hvy & Hs & _).
  - split; reflexivity.
  - vm_compute. reflexivity.
  - vm_compute. reflexivity.
  - vm_compute. reflexivity.
  - exists g'. split; [exact Hu|].
    assert (Hf : Lander.fuel (lander g') == 321).
    { destruct (update_total trig final_approach) as [g1 H1].
      rewrite H1 in Hu. injection Hu as <-.
      rewrite (update_active trig final_approach) in H1 by (split; reflexivity).
      destruct (collide_frame _ _ _ H1) as (_ & -> & _).
      vm_compute. reflexivity. }
    assert (Hs' : score g' == 321 + 200).
    { rewrite Hs. vm_compute. reflexivity. }
    split; [exact Hl|]. split; [exact Hvx|]. split; [exact Hvy|].
    split; [exact Hf|]. split; [exact Hs'|].
    split; [vm_compute; reflexivity|].
    intros E.
    assert (X : 321 + 200
                == 321 + Math_round ((MAX_LAND_VY - Math_abs 1) * 100)).
    { rewrite <- Hs'. exact E. }
    vm_compute in X. discriminate.
Qed.

End Landing.

(** ** The theorems at concrete inputs *)

Lemma update_wraps_to_edge_witness :
  active edge_drift
  /\ exists g',
       update sample_trig edge_drift = Ok g'
       /\ 0 <= Lander.x (lander g') /\ Lander.x (lander g') <= W.
Proof.
  assert (Hact : active edge_drift) by (split; reflexivity).
  split; [exact Hact|].
  destruct (update_wraps_to_edge sample_trig edge_drift Hact)
    as (g' & Hu & _ & _ & _ & Hlo & Hhi).
  exists g'. repeat split; assumption.
Defined.

(** C2 as claimed fails: a lander at x = W that drifts right by one half has
    the integrated x = W + 0.5 and ends the tick at x = 0, a half away
    from 0.5. *)
Lemma update_wrap_overshoot_counterexample :
  Lander.x (integrated sample_trig (keys edge_drift) (lander edge_drift))
  == W + 0.5
  /\ exists g',
       update sample_trig edge_drift = Ok g'
       /\ Lander.x (lander g') == 0
       /\ ~ Lander.x (lander g') == 0.5
       /\ Qabs (Lander.x (lander g') - 0.5) == 0.5.
Proof.
  split; [vm_compute; reflexivity|].
  eexists. split; [vm_compute; reflexivity|].
  split; [reflexivity|]. split; [discriminate|]. vm_compute. reflexivity.
Qed.

Lemma crash_precedence_witness :
  (active wreck_approach
   /\ terrainYAt (terrain wreck_approach)
        (Lander.x (at_impact sample_trig (keys wreck_approach)
                             (lander wreck_approach))) = Ok 405.0
   /\ geb (Lander.y (at_impact sample_trig (keys wreck_approach)
                               (lander wreck_approach)) + 14) 405.0 = true
   /\ onPad wreck_approach
        (at_impact sample_trig (keys wreck_approach) (lander wreck_approach))
      = false
   /\ safeAngle
        (at_impact sample_trig (keys wreck_approach) (lander wreck_approach))
      = false
   /\ safeSpeed
        (at_impact sample_trig (keys wreck_approach) (lander wreck_approach))
      = false)
  /\ exists g',
       update sample_trig wreck_approach = Ok g'
       /\ Lander.dead (lander g') = true
       /\ message g' = Some (mkMessage MissedThePad "#f77").
Proof.
  assert (Hact : active wreck_approach) by (split; reflexivity).
  assert (Hg : terrainYAt (terrain wreck_approach)
                 (Lander.x (at_impact sample_trig (keys wreck_approach)
                                      (lander wreck_approach))) = Ok 405.0).
  { vm_compute. reflexivity. }
  assert (Hc : geb (Lander.y (at_impact sample_trig (keys wreck_approach)
                                        (lander wreck_approach)) + 14) 405.0
               = true).
  { vm_compute. reflexivity. }
  assert (Hp : onPad wreck_approach
                 (at_impact sample_trig (keys wreck_approach)
                            (lander wreck_approach)) = false).
  { vm_compute. reflexivity. }
  assert (Ha : safeAngle
                 (at_impact sample_trig (keys wreck_approach)
                            (lander wreck_approach)) = false).
  { vm_compute. reflexivity. }
  assert (Hs : safeSpeed
                 (at_impact sample_trig (keys wreck_approach)
                            (lander wreck_approach)) = false).
  { vm_compute. reflexivity. }
  split; [repeat split; assumption|].
  destruct (crash_precedence sample_trig wreck_approach 405.0 Hact Hg Hc)
    as (g' & Hu & Hd & _ & _ & _ & Hoff & _).
  { rewrite Hp. reflexivity. }
  exists g'. repeat split; [exact Hu | exact Hd | exact (Hoff Hp)].
Defined.

Lemma update_terminal_noop_witness :
  (Lander.dead (lander landed_game) = true
   \/ Lander.landed (lander landed_game) = true)
  /\ forall k,
       update sample_trig (set_keys k landed_game) = Ok (set_keys k landed_game).
Proof.
  assert (Hterm : Lander.dead (lander landed_game) = true
                  \/ Lander.landed (lander landed_game) = true).
  { right. reflexivity. }
  split; [exact Hterm|].
  exact (proj1 (update_terminal_noop sample_trig landed_game Hterm)).
Defined.

Lemma createLander_whole_fuel (r : Q) : whole_fuel (createLander r) 500.
Proof.
  split; [lia | reflexivity].
Qed.

Lemma fuel_discipline_witness :
  (whole_fuel (lander lift_off) 500 /\ active lift_off)
  /\ exists g',
       update sample_trig lift_off = Ok g'
       /\ Lander.thrusting (lander g') = true
       /\ whole_fuel (lander g') 499.
Proof.
  assert (Hw : whole_fuel (lander lift_off) 500).
  { split; [lia | vm_compute; reflexivity]. }
  assert (Hact : active lift_off) by (split; reflexivity).
  split; [split; assumption|].
  destruct (proj1 (fuel_discipline sample_trig lift_off 500 Hw) Hact)
    as (g' & Hu & Hflag & Hon & _).
  assert (Hthr : Lander.thrusting (lander g') = true).
  { rewrite Hflag. vm_compute. reflexivity. }
  exists g'. split; [exact Hu|]. split; [exact Hthr|].
  exact (proj1 (proj2 (Hon Hthr))).
Defined.

(** The other two crashes of the specification's test list. *)
Example tilt_only_crash :
  exists g',
    update sample_trig tilted_approach = Ok g'
    /\ message g' = Some (mkMessage TiltedTooFar "#f77").
Proof.
  eexists. split; vm_compute; reflexivity.
Qed.

Example speed_only_crash :
  exists g' v,
    update sample_trig fast_approach = Ok g'
    /\ message g' = Some (mkMessage (TooFast v) "#f77") /\ v == 5.
Proof.
  eexists. eexists. split; [vm_compute; reflexivity|].
  split; [reflexivity|]. reflexivity.
Qed.

(** * Further properties *)

(** The sample draws lie in [0, 1). *)
Lemma sawtooth_range (k : nat) : 0 <= sawtooth k /\ sawtooth k < 1.
Proof.
  unfold sawtooth.
  assert (Hm := Nat.mod_upper_bound k 7 ltac:(lia)).
  assert (H0 : inject_Z 0 <= inject_Z (Z.of_nat (k mod 7)))
    by (rewrite <- Zle_Qle; lia).
  assert (H7 : inject_Z (Z.of_nat (k mod 7)) < inject_Z 7)
    by (rewrite <- Zlt_Qlt; lia).
  change (inject_Z 0) with 0 in H0. change (inject_Z 7) with 7 in H7.
  split.
  - apply Qle_shift_div_l; lra.
  - apply Qlt_shift_div_r; lra.
Qed.

(** ** Midpoint displacement *)

Lemma midpoint_strict (lo hi : nat) :
  (1 < hi - lo)%nat -> (lo < (lo + hi) / 2 < hi)%nat.
Proof.
  intros Hlt.
  assert (Hd := Nat.div_mod_eq (lo + hi) 2).
  assert (Hm := Nat.mod_upper_bound (lo + hi) 2).
  lia.
Qed.

(** [displace] writes strictly between [lo] and [hi] only. *)
Lemma displace_outside (rnd : Random) (lo hi : nat) (rough : Q)
      (st : GenState) :
  forall i, (i <= lo \/ hi <= i)%nat ->
            raw (displace rnd lo hi rough st) i = raw st i.
Proof.
  funelim (displace rnd lo hi rough st); intros i Hi.
  - reflexivity.
  - assert (Hm := midpoint_strict lo hi l0).
    match goal with
    | IH2 : forall i, (_ \/ hi <= i)%nat -> raw (displace _ _ hi _ _) i = _ |- _ =>
        rewrite IH2 by lia
    end.
    match goal with
    | IH1 : forall i, (i <= lo \/ _)%nat -> raw (displace _ lo _ _ _) i = _ |- _ =>
        rewrite IH1 by lia
    end.
    cbn [raw]. unfold raw_set.
    destruct (Nat.eqb_spec i ((lo + hi) / 2)%nat); [lia | reflexivity].
Qed.

Ltac midpoint_facts :=
  match goal with
  | Hw : (1 < ?hi - ?lo)%nat |- _ =>
      let Hm := fresh "Hm" in assert (Hm := midpoint_strict lo hi Hw)
  end.

(** With numbers at both ends, [displace] leaves a number at every index
    from [lo] to [hi]. *)
Lemma displace_fills (rnd : Random) (lo hi : nat) (rough : Q)
      (st : GenState) :
  (exists a, raw st lo = Some a) -> (exists b, raw st hi = Some b) ->
  forall i, (lo <= i <= hi)%nat ->
            exists q, raw (displace rnd lo hi rough st) i = Some q.
Proof.
  funelim (displace rnd lo hi rough st); intros [a Ha] [b Hb] i Hi.
  - assert (Hc : i = lo \/ i = hi) by lia.
    destruct Hc as [-> | ->]; eauto.
  - midpoint_facts.
    set (mid := ((lo + hi) / 2)%nat) in *.
    set (st1 := mkGen _ _) in *.
    assert (H1lo : exists a', raw st1 lo = Some a').
    { exists a. subst st1. cbn [raw]. unfold raw_set.
      destruct (Nat.eqb_spec lo mid); [lia | exact Ha]. }
    assert (H1mid : exists m, raw st1 mid = Some m).
    { subst st1. cbn [raw]. unfold raw_set. rewrite Nat.eqb_refl.
      rewrite Ha, Hb. cbn. eauto. }
    assert (H1hi : raw st1 hi = Some b).
    { subst st1. cbn [raw]. unfold raw_set.
      destruct (Nat.eqb_spec hi mid); [lia | exact Hb]. }
    match goal with
    | IH1 : (exists a, raw st1 lo = _) -> _ |- _ =>
        specialize (IH1 H1lo H1mid); rename IH1 into Hleft
    end.
    match goal with
    | IH2 : (exists a, raw (displace _ lo mid _ st1) mid = _) -> _ |- _ =>
        rename IH2 into Hright
    end.
    assert (H2hi : exists b', raw (displace rnd lo mid (rough * 0.6) st1) hi
                              = Some b').
    { exists b. rewrite displace_outside by lia. exact H1hi. }
    specialize (Hright (Hleft mid ltac:(lia)) H2hi).
    destruct (le_lt_dec mid i) as [Hge | Hlt].
    + apply Hright. lia.
    + rewrite displace_outside by lia. apply Hleft. lia.
Qed.

(** [displace] makes one draw for each index strictly between [lo] and
    [hi]. *)
Lemma displace_draws (rnd : Random) (lo hi : nat) (rough : Q)
      (st : GenState) :
  draws (displace rnd lo hi rough st) = (draws st + pred (hi - lo))%nat.
Proof.
  funelim (displace rnd lo hi rough st).
  - lia.
  - midpoint_facts.
    match goal with
    | IH2 : draws (displace _ _ hi _ _) = _ |- _ => rewrite IH2
    end.
    match goal with
    | IH1 : draws (displace _ lo _ _ _) = _ |- _ => rewrite IH1
    end.
    cbn [draws]. lia.
Qed.

(** ** The generated terrain, column by column *)

(** Each point of a generated terrain is the column of its index over an
    array in which that slot holds a number; when the draws lie in [0, 1)
    every number in the array is within the clamp's bounds. *)
Lemma generateTerrain_column (rnd : Random) (n i : nat) (p : Point) :
  get (points (fst (generateTerrain rnd n))) i = Some p ->
  exists a,
    (i < 81)%nat
    /\ p = terrain_point a (terrain_padX (fst (generateTerrain rnd n)))
                         (terrain_padY (fst (generateTerrain rnd n))) i
    /\ (exists q, a i = Some q)
    /\ ((forall k, 0 <= rnd k /\ rnd k < 1) -> raw_bounded a).
Proof.
  unfold generateTerrain, get.
  cbn [fst points terrain_padX terrain_padY].
  rewrite nth_error_map, nth_error_seq.
  change (Z.to_nat (Qceiling (W / step)) + 1)%nat with 81%nat.
  change (81 - 1)%nat with 80%nat.
  destruct (i <? 81)%nat eqn:Hi; cbn [option_map]; [|discriminate].
  intros [= <-]. apply Nat.ltb_lt in Hi.
  eexists. split; [exact Hi|]. split; [reflexivity|]. split.
  - apply displace_fills; cbn [raw]; [eexists; reflexivity.. | lia].
  - intros Hrnd. apply displace_bounded. cbn [raw].
    destruct (padY_bounds (rnd (n + 1)%nat)) as [Hp1 Hp2];
      try apply (Hrnd (n + 1)%nat).
    destruct (Hrnd (n + 2)%nat) as [Ha1 Ha2].
    destruct (Hrnd (n + 3)%nat) as [Hb1 Hb2].
    apply raw_set_bounded; [apply raw_set_bounded|].
    + intros j q. discriminate.
    + intros q [= <-]. unfold H in *. lra.
    + intros q [= <-]. unfold H in *. lra.
Qed.

Lemma terrain_point_x (a : nat -> num) (padX padY : Q) (i : nat) :
  px (terrain_point a padX padY i) = inject_Z (Z.of_nat i) * step.
Proof.
  unfold terrain_point. break_ifs; reflexivity.
Qed.

Lemma terrain_point_on_pad (a : nat -> num) (padX padY : Q) (i : nat) :
  padX <= inject_Z (Z.of_nat i) * step ->
  inject_Z (Z.of_nat i) * step <= padX + PAD_WIDTH ->
  py (terrain_point a padX padY i) = padY.
Proof.
  intros Hlo Hhi. unfold terrain_point, geb.
  apply leb_le in Hlo. apply leb_le in Hhi. rewrite Hlo, Hhi. reflexivity.
Qed.

Lemma terrain_point_off_pad (a : nat -> num) (padX padY : Q) (i : nat) :
  ~ (padX <= inject_Z (Z.of_nat i) * step
     /\ inject_Z (Z.of_nat i) * step <= padX + PAD_WIDTH) ->
  py (terrain_point a padX padY i) = round_or (a i) padY.
Proof.
  intros Hoff. unfold terrain_point, geb.
  destruct (leb padX (inject_Z (Z.of_nat i) * step)) eqn:E1;
    [|reflexivity].
  destruct (leb (inject_Z (Z.of_nat i) * step) (padX + PAD_WIDTH)) eqn:E2;
    [|reflexivity].
  apply leb_le in E1. apply leb_le in E2. exfalso. apply Hoff. now split.
Qed.

(** A number within the clamp's bounds rounds to a whole number within them,
    which is not zero: the fallback of [round_or] is not taken. *)
Lemma round_or_number (q padY : Q) :
  H * 0.45 <= q -> q <= H - 20 ->
  round_or (Some q) padY = Math_round q
  /\ H * 0.45 <= Math_round q /\ Math_round q <= H - 20.
Proof.
  intros Hq1 Hq2. unfold H in *.
  destruct (Math_round_bounds 270 580 q) as [Hr1 Hr2].
  - change (inject_Z 270) with 270. lra.
  - change (inject_Z 580) with 580. lra.
  - change (inject_Z 270) with 270 in Hr1.
    change (inject_Z 580) with 580 in Hr2.
    split; [|split; lra].
    unfold round_or.
    assert (Hne : eqb (Math_round q) 0 = false) by (apply eqb_neq; lra).
    rewrite Hne. reflexivity.
Qed.

(** The pad position and height that the generator draws, in exact
    arithmetic. *)
Lemma pad_bounds (r0 r1 : Q) :
  0 <= r0 -> r0 < 1 -> 0 <= r1 -> r1 < 1 ->
  (160 <= Math_floor (r0 * (W * 0.5) + W * 0.2)
   /\ Math_floor (r0 * (W * 0.5) + W * 0.2) <= 559)
  /\ (330 <= Math_floor (r1 * (H * 0.25) + H * 0.55)
      /\ Math_floor (r1 * (H * 0.25) + H * 0.55) <= 479).
Proof.
  intros Ha0 Ha1 Hb0 Hb1. split; [|now apply padY_bounds].
  apply (Math_floor_bounds 160 559); unfold W.
  - change (inject_Z 160) with 160. lra.
  - change (inject_Z 559) with 559. lra.
Qed.

(** Every height of a generated terrain, for draws in [0, 1). *)
Lemma generateTerrain_point_bounds (rnd : Random) (n i : nat) (p : Point) :
  (forall k, 0 <= rnd k /\ rnd k < 1) ->
  get (points (fst (generateTerrain rnd n))) i = Some p ->
  H * 0.45 <= py p /\ py p <= H - 20.
Proof.
  intros Hrnd Hp.
  destruct (generateTerrain_column rnd n i p Hp) as (a & Hi & -> & [q Hq] & Hb).
  specialize (Hb Hrnd).
  destruct (pad_bounds (rnd n) (rnd (n + 1)%nat)) as [_ [Hy1 Hy2]];
    try apply Hrnd.
  unfold generateTerrain. cbn [fst terrain_padX terrain_padY].
  set (padX := Math_floor (rnd n * (W * 0.5) + W * 0.2)).
  set (padY := Math_floor (rnd (n + 1)%nat * (H * 0.25) + H * 0.55)) in *.
  unfold terrain_point.
  match goal with |- context [if ?c then _ else _] => destruct c end;
    cbn [py].
  - unfold H. lra.
  - rewrite Hq. destruct (Hb i q Hq) as [Hq1 Hq2].
    destruct (round_or_number q padY Hq1 Hq2) as (-> & Hr1 & Hr2).
    split; assumption.
Qed.

(** The points of a generated terrain are the columns over the displaced
    array. *)
Lemma generateTerrain_points (rnd : Random) (n : nat) :
  points (fst (generateTerrain rnd n))
  = map (terrain_point (displaced_raw rnd n)
                       (terrain_padX (fst (generateTerrain rnd n)))
                       (terrain_padY (fst (generateTerrain rnd n))))
        (seq 0 81).
Proof.
  reflexivity.
Qed.

Lemma generateTerrain_nth (rnd : Random) (n i : nat) (p : Point) :
  get (points (fst (generateTerrain rnd n))) i = Some p ->
  (i < 81)%nat
  /\ p = terrain_point (displaced_raw rnd n)
                       (terrain_padX (fst (generateTerrain rnd n)))
                       (terrain_padY (fst (generateTerrain rnd n))) i.
Proof.
  rewrite generateTerrain_points. unfold get.
  rewrite nth_error_map, nth_error_seq.
  destruct (i <? 81)%nat eqn:Hi; cbn [option_map]; [|discriminate].
  intros [= <-]. apply Nat.ltb_lt in Hi. split; [exact Hi | reflexivity].
Qed.

(** The two ends of the displaced array are the seeds. *)
Lemma displaced_raw_ends (rnd : Random) (n : nat) :
  displaced_raw rnd n 0
  = Some (terrain_padY (fst (generateTerrain rnd n))
          + (rnd (n + 2)%nat - 0.5) * 80)
  /\ displaced_raw rnd n 80
     = Some (terrain_padY (fst (generateTerrain rnd n))
             + (rnd (n + 3)%nat - 0.5) * 80).
Proof.
  unfold displaced_raw. split; rewrite displace_outside by lia; reflexivity.
Qed.

(** C4, as the generator has it: the point of a generated terrain at index i
    is at x = 10 * i; if that x lies in [padX, padX + PAD_WIDTH] its y is
    [padY]; otherwise its y is the rounded displaced height of its column,
    [Math.round(raw[i]) || padY], where [raw] is the array that [displace]
    has filled between its two seeded ends.  (Nothing keeps that rounded
    height from being [padY] as well.) *)
Theorem generateTerrain_pad_flat (rnd : Random) (n i : nat) (p : Point) :
  get (points (fst (generateTerrain rnd n))) i = Some p ->
  px p = inject_Z (Z.of_nat i) * step
  /\ (terrain_padX (fst (generateTerrain rnd n)) <= px p ->
      px p <= terrain_padX (fst (generateTerrain rnd n)) + PAD_WIDTH ->
      py p = terrain_padY (fst (generateTerrain rnd n)))
  /\ (~ (terrain_padX (fst (generateTerrain rnd n)) <= px p
         /\ px p <= terrain_padX (fst (generateTerrain rnd n)) + PAD_WIDTH) ->
      py p = round_or (raw (displace rnd 0 80 120 (seeded rnd n)) i)
                      (terrain_padY (fst (generateTerrain rnd n))))
  /\ raw (displace rnd 0 80 120 (seeded rnd n)) 0
     = Some (terrain_padY (fst (generateTerrain rnd n))
             + (rnd (n + 2)%nat - 0.5) * 80)
  /\ raw (displace rnd 0 80 120 (seeded rnd n)) 80
     = Some (terrain_padY (fst (generateTerrain rnd n))
             + (rnd (n + 3)%nat - 0.5) * 80).
Proof.
  intros Hp. destruct (generateTerrain_nth rnd n i p Hp) as [Hi ->].
  rewrite terrain_point_x.
  split; [reflexivity|]. split; [|split; [|exact (displaced_raw_ends rnd n)]].
  - intros Hlo Hhi. apply terrain_point_on_pad; assumption.
  - intros Hoff. apply (terrain_point_off_pad (displaced_raw rnd n)).
    exact Hoff.
Qed.

Lemma generateTerrain_pad_flat_witness :
  get (points (fst (generateTerrain sawtooth 0))) 3 = Some (mkPoint 30 320)
  /\ get (points (fst (generateTerrain sawtooth 0))) 20
     = Some (mkPoint 200 348)
  /\ terrain_padX (fst (generateTerrain sawtooth 0)) == 160
  /\ 348 = terrain_padY (fst (generateTerrain sawtooth 0))
  /\ 320 = round_or (raw (displace sawtooth 0 80 120 (seeded sawtooth 0)) 3)
                    (terrain_padY (fst (generateTerrain sawtooth 0))).
Proof.
  assert (H3 : get (points (fst (generateTerrain sawtooth 0))) 3
               = Some (mkPoint 30 320)) by (vm_compute; reflexivity).
  assert (H20 : get (points (fst (generateTerrain sawtooth 0))) 20
                = Some (mkPoint 200 348)) by (vm_compute; reflexivity).
  assert (HpadX : terrain_padX (fst (generateTerrain sawtooth 0)) == 160)
    by (vm_compute; reflexivity).
  split; [exact H3|]. split; [exact H20|]. split; [exact HpadX|].
  destruct (generateTerrain_pad_flat sawtooth 0 20 (mkPoint 200 348) H20)
    as (_ & Hon & _).
  destruct (generateTerrain_pad_flat sawtooth 0 3 (mkPoint 30 320) H3)
    as (_ & _ & Hoff & _).
  cbn [px py] in Hon, Hoff. split.
  - apply Hon; rewrite HpadX; vm_compute; discriminate.
  - apply Hoff. rewrite HpadX. intros [Hlo _]. revert Hlo.
    apply Qlt_not_le. reflexivity.
Defined.

(** X1: a generated terrain has 81 points in columns 10 apart, strictly
    increasing in x, the first at x = 0 and the last at x = W. *)
Theorem generateTerrain_spans_canvas (rnd : Random) (n : nat) :
  length (points (fst (generateTerrain rnd n))) = 81%nat
  /\ x_increasing (points (fst (generateTerrain rnd n)))
  /\ (forall i p, get (points (fst (generateTerrain rnd n))) i = Some p ->
                  px p = inject_Z (Z.of_nat i) * step)
  /\ (exists p, get (points (fst (generateTerrain rnd n))) 0 = Some p
                /\ px p == 0)
  /\ (exists q, get (points (fst (generateTerrain rnd n))) 80 = Some q
                /\ px q == W).
Proof.
  assert (Hlen := generateTerrain_length rnd n).
  split; [exact Hlen|]. split; [apply generateTerrain_increasing|].
  split; [intros i p Hp; now apply (generateTerrain_get rnd n i p)|].
  split.
  - destruct (get_in_range (points (fst (generateTerrain rnd n))) 0)
      as [p Hp]; [lia|].
    exists p. split; [exact Hp|].
    apply generateTerrain_get in Hp as [_ ->]. reflexivity.
  - destruct (get_in_range (points (fst (generateTerrain rnd n))) 80)
      as [q Hq]; [lia|].
    exists q. split; [exact Hq|].
    apply generateTerrain_get in Hq as [_ ->]. reflexivity.
Qed.

(** X2: for draws in [0, 1) the pad start and the pad height are whole
    numbers, [padX] from 160 to 560 and [padY] from 330 to 480, so the pad
    lies inside the canvas: 0 < padX and padX + PAD_WIDTH < W.  (In exact
    arithmetic 560 and 480 are not reached; in binary64 the sums
    r * 400 + 160 and r * 150 + 330 can round up to them.) *)
Theorem generateTerrain_pad_on_canvas (rnd : Random) (n : nat) :
  (forall k, 0 <= rnd k /\ rnd k < 1) ->
  exists zx zy : Z,
    terrain_padX (fst (generateTerrain rnd n)) = inject_Z zx
    /\ terrain_padY (fst (generateTerrain rnd n)) = inject_Z zy
    /\ (160 <= zx <= 560)%Z /\ (330 <= zy <= 480)%Z
    /\ 0 < terrain_padX (fst (generateTerrain rnd n))
    /\ terrain_padX (fst (generateTerrain rnd n)) + PAD_WIDTH < W.
Proof.
  intros Hrnd.
  destruct (pad_bounds (rnd n) (rnd (n + 1)%nat))
    as [[Hx1 Hx2] [Hy1 Hy2]]; try apply Hrnd.
  unfold generateTerrain. cbn [fst terrain_padX terrain_padY].
  unfold Math_floor in *.
  exists (Qfloor (rnd n * (W * 0.5) + W * 0.2)),
         (Qfloor (rnd (n + 1)%nat * (H * 0.25) + H * 0.55)).
  split; [reflexivity|]. split; [reflexivity|].
  change 160 with (inject_Z 160) in Hx1. change 559 with (inject_Z 559) in Hx2.
  change 330 with (inject_Z 330) in Hy1. change 479 with (inject_Z 479) in Hy2.
  rewrite <- Zle_Qle in Hx1, Hx2, Hy1, Hy2.
  split; [lia|]. split; [lia|].
  set (zx := Qfloor (rnd n * (W * 0.5) + W * 0.2)) in *.
  assert (Hq1 : inject_Z 160 <= inject_Z zx) by (rewrite <- Zle_Qle; lia).
  assert (Hq2 : inject_Z zx <= inject_Z 559) by (rewrite <- Zle_Qle; lia).
  change (inject_Z 160) with 160 in Hq1.
  change (inject_Z 559) with 559 in Hq2.
  unfold PAD_WIDTH, W. split; lra.
Qed.

Lemma generateTerrain_pad_on_canvas_witness :
  (forall k, 0 <= halves k /\ halves k < 1)
  /\ exists zx zy : Z,
       terrain_padX (fst (generateTerrain halves 0)) = inject_Z zx
       /\ terrain_padY (fst (generateTerrain halves 0)) = inject_Z zy
       /\ (160 <= zx <= 560)%Z /\ (330 <= zy <= 480)%Z
       /\ 0 < terrain_padX (fst (generateTerrain halves 0))
       /\ terrain_padX (fst (generateTerrain halves 0)) + PAD_WIDTH < W.
Proof.
  assert (Hrnd : forall k, 0 <= halves k /\ halves k < 1).
  { intros k. unfold halves. split; lra. }
  split; [exact Hrnd|].
  exact (generateTerrain_pad_on_canvas halves 0 Hrnd).
Defined.

(** The last draw below 1 in binary64: both sums round up to whole numbers,
    560 and 480, which are then their own floors. *)
Example pad_sums_round_up :
  PrimFloat.ltb Binary64.below_one Binary64.one = true
  /\ Binary64.padX_sum Binary64.below_one = Binary64.x_560
  /\ Binary64.padY_sum Binary64.below_one = Binary64.y_480.
Proof.
  repeat split; vm_compute; reflexivity.
Qed.

(** X3: whatever the draws are, generating a terrain makes exactly 83 draws
    and resetting the game 84: the lander is created from the 84th. *)
Theorem resetGame_draws (rnd : Random) (n : nat) (k : Keys) :
  snd (generateTerrain rnd n) = (n + 83)%nat
  /\ snd (resetGame rnd n k) = (n + 84)%nat
  /\ lander (fst (resetGame rnd n k)) = createLander (rnd (n + 83)%nat).
Proof.
  assert (Hg : snd (generateTerrain rnd n) = (n + 83)%nat).
  { unfold generateTerrain. cbn [snd]. rewrite displace_draws.
    cbn [draws].
    change (Z.to_nat (Qceiling (W / step)) + 1 - 1 - 0)%nat with 80%nat.
    cbn [pred]. lia. }
  split; [exact Hg|]. unfold resetGame.
  destruct (generateTerrain rnd n) as [t n1]. cbn [snd fst lander] in *.
  subst n1. split; [lia | reflexivity].
Qed.

(** For draws in [0, 1) every slot of the displaced array from 0 to 80
    holds a number within the clamp's bounds. *)
Lemma displaced_raw_slot (rnd : Random) (n i : nat) :
  (forall k, 0 <= rnd k /\ rnd k < 1) -> (i < 81)%nat ->
  exists q,
    displaced_raw rnd n i = Some q /\ H * 0.45 <= q /\ q <= H - 20.
Proof.
  intros Hrnd Hi. unfold displaced_raw.
  destruct (displace_fills rnd 0 80 120 (seeded rnd n)) with (i := i)
    as [q Hq]; [eexists; reflexivity.. | lia |].
  exists q. split; [exact Hq|].
  apply (displace_bounded rnd 0 80 120 (seeded rnd n)) with (i := i);
    [|exact Hq].
  cbn [raw seeded].
  destruct (padY_bounds (rnd (n + 1)%nat)) as [Hp1 Hp2];
    try apply (Hrnd (n + 1)%nat).
  destruct (Hrnd (n + 2)%nat) as [Ha1 Ha2].
  destruct (Hrnd (n + 3)%nat) as [Hb1 Hb2].
  apply raw_set_bounded; [apply raw_set_bounded|].
  - intros j r. discriminate.
  - intros r [= <-]. unfold H in *. lra.
  - intros r [= <-]. unfold H in *. lra.
Qed.

(** X4: for draws in [0, 1), [displace] leaves a number from H * 0.45 to
    H - 20 in every slot of [raw] from 0 to 80, none is left unfilled, and
    its rounding is not 0: a point of the generated terrain outside
    [padX, padX + PAD_WIDTH] has the rounding of the number in its slot as
    its y, and the fallback to [padY] is never taken. *)
Theorem generateTerrain_off_pad_rounded (rnd : Random) (n i : nat) :
  (forall k, 0 <= rnd k /\ rnd k < 1) ->
  (i < 81)%nat ->
  exists q,
    raw (displace rnd 0 80 120 (seeded rnd n)) i = Some q
    /\ H * 0.45 <= q /\ q <= H - 20
    /\ ~ Math_round q == 0
    /\ round_or (raw (displace rnd 0 80 120 (seeded rnd n)) i)
                (terrain_padY (fst (generateTerrain rnd n)))
       = Math_round q
    /\ (forall p,
          get (points (fst (generateTerrain rnd n))) i = Some p ->
          ~ (terrain_padX (fst (generateTerrain rnd n)) <= px p
             /\ px p
                <= terrain_padX (fst (generateTerrain rnd n)) + PAD_WIDTH) ->
          py p = Math_round q).
Proof.
  intros Hrnd Hi.
  destruct (displaced_raw_slot rnd n i Hrnd Hi) as (q & Hq & Hq1 & Hq2).
  unfold displaced_raw in Hq.
  destruct (round_or_number q (terrain_padY (fst (generateTerrain rnd n)))
              Hq1 Hq2) as (Hro & Hr1 & Hr2).
  exists q. split; [exact Hq|]. split; [exact Hq1|]. split; [exact Hq2|].
  split; [unfold H in Hr1; lra|].
  split; [rewrite Hq; exact Hro|].
  intros p Hp Hoff.
  destruct (generateTerrain_nth rnd n i p Hp) as [_ E].
  rewrite E in Hoff |- *. rewrite terrain_point_x in Hoff.
  rewrite (terrain_point_off_pad _ _ _ i Hoff).
  unfold displaced_raw. rewrite Hq. exact Hro.
Qed.

Lemma generateTerrain_off_pad_rounded_witness :
  ((forall k, 0 <= sawtooth k /\ sawtooth k < 1) /\ (3 < 81)%nat)
  /\ exists q,
       raw (displace sawtooth 0 80 120 (seeded sawtooth 0)) 3 = Some q
       /\ H * 0.45 <= q /\ q <= H - 20
       /\ Math_round q == 320.
Proof.
  assert (Hi : (3 < 81)%nat) by lia.
  split; [split; [exact sawtooth_range | exact Hi]|].
  destruct (generateTerrain_off_pad_rounded sawtooth 0 3 sawtooth_range Hi)
    as (q & Hq & Hq1 & Hq2 & _ & _ & Hp).
  exists q. split; [exact Hq|]. split; [exact Hq1|]. split; [exact Hq2|].
  assert (H3 : get (points (fst (generateTerrain sawtooth 0))) 3
               = Some (mkPoint 30 320)) by (vm_compute; reflexivity).
  rewrite <- (Hp (mkPoint 30 320) H3); [reflexivity|].
  cbn [px]. intros [Hlo _]. revert Hlo. apply Qlt_not_le.
  vm_compute. reflexivity.
Defined.

(** ** Lookups inside the terrain *)

(** On its segment the line stays between bounds that hold at both ends. *)
Lemma interpolate_between (p1 p2 : Point) (x a b : Q) :
  px p1 < px p2 -> px p1 <= x -> x <= px p2 ->
  a <= py p1 -> py p1 <= b -> a <= py p2 -> py p2 <= b ->
  a <= interpolate p1 p2 x /\ interpolate p1 p2 x <= b.
Proof.
  intros Hlt Hx1 Hx2 Ha1 Hb1 Ha2 Hb2. unfold interpolate.
  set (t := (x - px p1) / (px p2 - px p1)).
  assert (Ht : t * (px p2 - px p1) == x - px p1) by (unfold t; field; lra).
  assert (Ht0 : 0 <= t).
  { apply Qnot_lt_le. intros Hneg.
    assert (t * (px p2 - px p1) < 0); [|lra].
    setoid_replace (t * (px p2 - px p1)) with (- ((- t) * (px p2 - px p1)))
      by ring.
    assert (0 < (- t) * (px p2 - px p1)); [|lra].
    apply Qmult_lt_0_compat; lra. }
  assert (Ht1 : t <= 1).
  { apply Qnot_lt_le. intros Hbig.
    assert (0 < (t - 1) * (px p2 - px p1)) by (apply Qmult_lt_0_compat; lra).
    lra. }
  assert (H1 : 0 <= t * (py p1 - a)) by (apply Qmult_le_0_compat; lra).
  assert (H2 : 0 <= t * (py p2 - a)) by (apply Qmult_le_0_compat; lra).
  assert (H3 : 0 <= (1 - t) * (py p1 - a)) by (apply Qmult_le_0_compat; lra).
  assert (H4 : 0 <= t * (b - py p2)) by (apply Qmult_le_0_compat; lra).
  assert (H5 : 0 <= (1 - t) * (b - py p1)) by (apply Qmult_le_0_compat; lra).
  split; lra.
Qed.

Lemma interpolate_at_start (p1 p2 : Point) (x : Q) :
  px p1 < px p2 -> x == px p1 -> interpolate p1 p2 x == py p1.
Proof.
  intros Hlt Hx. unfold interpolate.
  set (t := (x - px p1) / (px p2 - px p1)).
  assert (Ht : t * (px p2 - px p1) == 0) by (unfold t; field_simplify; lra).
  apply Qmult_integral in Ht as [Ht | Ht]; [|lra].
  rewrite Ht. lra.
Qed.

(** Inside the x-range of a strictly increasing terrain the lookup
    interpolates on a segment that holds x, and holds it strictly on the
    right unless it is the last segment. *)
Lemma terrainYAt_bracketed (terrain : list Point) (x : Q) (p0 pl : Point) :
  (2 <= length terrain)%nat -> x_increasing terrain ->
  get terrain 0 = Some p0 -> get terrain (length terrain - 1) = Some pl ->
  px p0 <= x -> x <= px pl ->
  exists k p1 p2,
    get terrain k = Some p1 /\ get terrain (k + 1) = Some p2
    /\ px p1 < px p2 /\ px p1 <= x /\ x <= px p2
    /\ ((k + 2)%nat = length terrain \/ x < px p2)
    /\ terrainYAt terrain x = Ok (interpolate p1 p2 x).
Proof.
  intros Hlen Hinc H0 Hl Hx0 Hxl.
  destruct (search_brackets terrain x (length terrain) 0 (length terrain - 2))
    as (k & Hk & Hr & Hlo & Hhi); try lia.
  destruct (get_in_range terrain k) as [p1 H1]; [lia|].
  destruct (get_in_range terrain (k + 1)) as [p2 H2]; [lia|].
  assert (Hlt : px p1 < px p2).
  { apply (Hinc k (k + 1)%nat); [lia | assumption..]. }
  exists k, p1, p2. split; [exact H1|]. split; [exact H2|].
  split; [exact Hlt|]. split; [|split; [|split]].
  - destruct Hlo as [-> | (p & Hp & Hpx)].
    + rewrite H0 in H1. injection H1 as <-. exact Hx0.
    + rewrite Hp in H1. injection H1 as <-. exact Hpx.
  - destruct Hhi as [-> | (p & Hp & Hpx)].
    + replace (length terrain - 2 + 1)%nat with (length terrain - 1)%nat
        in H2 by lia.
      rewrite Hl in H2. injection H2 as <-. exact Hxl.
    + rewrite Hp in H2. injection H2 as <-. lra.
  - destruct Hhi as [-> | (p & Hp & Hpx)]; [left; lia | right].
    rewrite Hp in H2. injection H2 as <-. exact Hpx.
  - unfold terrainYAt.
    apply (terrainYAt_fuel_segment terrain x _ k p1 p2 Hlen); assumption.
Qed.

Lemma generateTerrain_ground (rnd : Random) (n : nat) (x : Q) :
  (forall k, 0 <= rnd k /\ rnd k < 1) ->
  0 <= x -> x <= W ->
  exists v,
    terrainYAt (points (fst (generateTerrain rnd n))) x = Ok v
    /\ H * 0.45 <= v /\ v <= H - 20.
Proof.
  intros Hrnd Hx0 HxW.
  assert (Hlen := generateTerrain_length rnd n).
  destruct (get_in_range (points (fst (generateTerrain rnd n))) 0)
    as [p0 H0]; [lia|].
  destruct (get_in_range (points (fst (generateTerrain rnd n)))
              (length (points (fst (generateTerrain rnd n))) - 1))
    as [pl Hl]; [lia|].
  assert (E0 : px p0 == 0).
  { apply generateTerrain_get in H0 as [_ ->]. reflexivity. }
  assert (El : px pl == W).
  { pose proof Hl as Hl'. rewrite Hlen in Hl'.
    apply generateTerrain_get in Hl' as [_ ->]. reflexivity. }
  destruct (terrainYAt_bracketed (points (fst (generateTerrain rnd n)))
              x p0 pl) as
    (k & p1 & p2 & H1 & H2 & Hlt & Hx1 & Hx2 & _ & Hv);
    try assumption; try lia; try lra.
  { apply generateTerrain_increasing. }
  exists (interpolate p1 p2 x). split; [exact Hv|].
  destruct (generateTerrain_point_bounds rnd n k p1 Hrnd H1) as [Ha1 Hb1].
  destruct (generateTerrain_point_bounds rnd n _ p2 Hrnd H2) as [Ha2 Hb2].
  apply interpolate_between; assumption.
Qed.

(** X6: for draws in [0, 1), the ground of a generated terrain is defined
    at every x from 0 to W and lies from H * 0.45 to H - 20: on the canvas,
    at least 20 above its lower edge. *)
Theorem generated_ground_on_canvas (rnd : Random) (n : nat) (x : Q) :
  (forall k, 0 <= rnd k /\ rnd k < 1) ->
  0 <= x -> x <= W ->
  exists v,
    terrainYAt (points (fst (generateTerrain rnd n))) x = Ok v
    /\ H * 0.45 <= v /\ v <= H - 20.
Proof.
  intros Hrnd Hx0 HxW.
  assert (Hlen := generateTerrain_length rnd n).
  destruct (get_in_range (points (fst (generateTerrain rnd n))) 0)
    as [p0 H0]; [lia|].
  destruct (get_in_range (points (fst (generateTerrain rnd n)))
              (length (points (fst (generateTerrain rnd n))) - 1))
    as [pl Hl]; [lia|].
  assert (E0 : px p0 == 0).
  { apply generateTerrain_get in H0 as [_ ->]. reflexivity. }
  assert (El : px pl == W).
  { pose proof Hl as Hl'. rewrite Hlen in Hl'.
    apply generateTerrain_get in Hl' as [_ ->]. reflexivity. }
  destruct (terrainYAt_bracketed (points (fst (generateTerrain rnd n)))
              x p0 pl) as
    (k & p1 & p2 & H1 & H2 & Hlt & Hx1 & Hx2 & _ & Hv);
    try assumption; try lia; try lra.
  { apply generateTerrain_increasing. }
  exists (interpolate p1 p2 x). split; [exact Hv|].
  destruct (generateTerrain_point_bounds rnd n k p1 Hrnd H1) as [Ha1 Hb1].
  destruct (generateTerrain_point_bounds rnd n _ p2 Hrnd H2) as [Ha2 Hb2].
  apply interpolate_between; assumption.
Qed.

Lemma generated_ground_on_canvas_witness :
  ((forall k, 0 <= halves k /\ halves k < 1) /\ 0 <= 123 /\ 123 <= W)
  /\ exists v,
       terrainYAt (points (fst (generateTerrain halves 0))) 123 = Ok v
       /\ H * 0.45 <= v /\ v <= H - 20.
Proof.
  assert (Hrnd : forall k, 0 <= halves k /\ halves k < 1).
  { intros k. unfold halves. split; lra. }
  assert (Hx0 : 0 <= 123) by lra.
  assert (HxW : 123 <= W) by (unfold W; lra).
  split; [split; [exact Hrnd | split; assumption]|].
  exact (generated_ground_on_canvas halves 0 123 Hrnd Hx0 HxW).
Defined.

(** X7: the pad is level for the lookup: between two neighbouring columns
    of a generated terrain that both lie in [padX, padX + PAD_WIDTH], the
    ground is at [padY]. *)
Theorem pad_is_level (rnd : Random) (n i : nat) (x : Q) :
  (i < 80)%nat ->
  terrain_padX (fst (generateTerrain rnd n)) <= inject_Z (Z.of_nat i) * step ->
  inject_Z (Z.of_nat (i + 1)) * step
  <= terrain_padX (fst (generateTerrain rnd n)) + PAD_WIDTH ->
  inject_Z (Z.of_nat i) * step <= x ->
  x <= inject_Z (Z.of_nat (i + 1)) * step ->
  exists v,
    terrainYAt (points (fst (generateTerrain rnd n))) x = Ok v
    /\ v == terrain_padY (fst (generateTerrain rnd n)).
Proof.
  intros Hi Hpad1 Hpad2 Hx1 Hx2.
  set (t := points (fst (generateTerrain rnd n))).
  assert (Hlen : length t = 81%nat) by apply generateTerrain_length.
  assert (Hinc : x_increasing t) by apply generateTerrain_increasing.
  assert (Hstep : inject_Z (Z.of_nat (i + 1))
                  == inject_Z (Z.of_nat i) + 1).
  { rewrite Nat2Z.inj_add, inject_Z_plus. reflexivity. }
  destruct (get_in_range t 0) as [p0 H0]; [lia|].
  destruct (get_in_range t (length t - 1)) as [pl Hl]; [lia|].
  assert (E0 : px p0 == 0).
  { apply generateTerrain_get in H0 as [_ ->]. reflexivity. }
  assert (El : px pl == W).
  { pose proof Hl as Hl'. rewrite Hlen in Hl'.
    apply generateTerrain_get in Hl' as [_ ->]. reflexivity. }
  assert (Hi0 : 0 <= inject_Z (Z.of_nat i)).
  { change 0 with (inject_Z 0). rewrite <- Zle_Qle. lia. }
  assert (Hi80 : inject_Z (Z.of_nat i) + 1 <= 80).
  { rewrite <- Hstep. change 80 with (inject_Z 80). rewrite <- Zle_Qle. lia. }
  destruct (terrainYAt_bracketed t x p0 pl) as
    (k & p1 & p2 & H1 & H2 & Hlt & Hk1 & Hk2 & Hstrict & Hv);
    try assumption; try lia.
  { unfold step in *. lra. }
  { unfold step, W in *. lra. }
  exists (interpolate p1 p2 x). split; [exact Hv|].
  destruct (generateTerrain_column rnd n k p1 H1) as (a1 & _ & E1 & _).
  destruct (generateTerrain_column rnd n (k + 1) p2 H2) as (a2 & Hk80 & E2 & _).
  assert (X1 : px p1 = inject_Z (Z.of_nat k) * step)
    by (rewrite E1; apply terrain_point_x).
  assert (X2 : px p2 = inject_Z (Z.of_nat (k + 1)) * step)
    by (rewrite E2; apply terrain_point_x).
  assert (Hkstep : inject_Z (Z.of_nat (k + 1))
                   == inject_Z (Z.of_nat k) + 1).
  { rewrite Nat2Z.inj_add, inject_Z_plus. reflexivity. }
  rewrite X1 in Hk1. rewrite X2 in Hk2, Hstrict.
  assert (Hupper : (k <= i + 1)%nat).
  { assert (inject_Z (Z.of_nat k) <= inject_Z (Z.of_nat (i + 1)))
      by (unfold step in *; lra).
    rewrite <- Zle_Qle in *. lia. }
  assert (Hlower : (i <= k)%nat).
  { destruct Hstrict as [Hlast | Hstrict]; [lia|].
    assert (inject_Z (Z.of_nat i) < inject_Z (Z.of_nat (k + 1)))
      by (unfold step in *; lra).
    rewrite <- Zlt_Qlt in *. lia. }
  assert (Y1 : py p1 = terrain_padY (fst (generateTerrain rnd n))).
  { rewrite E1. apply terrain_point_on_pad.
    - assert (inject_Z (Z.of_nat i) <= inject_Z (Z.of_nat k))
        by (rewrite <- Zle_Qle; lia).
      unfold step in *. lra.
    - assert (inject_Z (Z.of_nat k) <= inject_Z (Z.of_nat (i + 1)))
        by (rewrite <- Zle_Qle; lia).
      unfold step in *. lra. }
  assert (Hk : k = i \/ k = (i + 1)%nat) by lia.
  destruct Hk as [-> | ->].
  - assert (Y2 : py p2 = terrain_padY (fst (generateTerrain rnd n))).
    { rewrite E2. apply terrain_point_on_pad; unfold step in *; lra. }
    destruct (interpolate_between p1 p2 x
                (terrain_padY (fst (generateTerrain rnd n)))
                (terrain_padY (fst (generateTerrain rnd n))))
      as [Hlo Hhi]; rewrite ?X1, ?X2, ?Y1, ?Y2; try lra.
    rewrite <- X1, <- X2. exact Hlt.
  - rewrite <- Y1. apply interpolate_at_start; [exact Hlt|].
    rewrite X1. apply Qle_antisym; assumption.
Qed.

Lemma pad_is_level_witness :
  ((40 < 80)%nat
   /\ terrain_padX (fst (generateTerrain halves 0))
      <= inject_Z (Z.of_nat 40) * step
   /\ inject_Z (Z.of_nat (40 + 1)) * step
      <= terrain_padX (fst (generateTerrain halves 0)) + PAD_WIDTH
   /\ inject_Z (Z.of_nat 40) * step <= 405
   /\ 405 <= inject_Z (Z.of_nat (40 + 1)) * step)
  /\ exists v,
       terrainYAt (points (fst (generateTerrain halves 0))) 405 = Ok v
       /\ v == terrain_padY (fst (generateTerrain halves 0)).
Proof.
  assert (Hi : (40 < 80)%nat) by lia.
  assert (H1 : terrain_padX (fst (generateTerrain halves 0))
               <= inject_Z (Z.of_nat 40) * step).
  { vm_compute. discriminate. }
  assert (H2 : inject_Z (Z.of_nat (40 + 1)) * step
               <= terrain_padX (fst (generateTerrain halves 0)) + PAD_WIDTH).
  { vm_compute. discriminate. }
  assert (H3 : inject_Z (Z.of_nat 40) * step <= 405).
  { vm_compute. discriminate. }
  assert (H4 : 405 <= inject_Z (Z.of_nat (40 + 1)) * step).
  { vm_compute. discriminate. }
  split; [repeat (split; [assumption|]); assumption|].
  exact (pad_is_level halves 0 40 405 Hi H1 H2 H3 H4).
Defined.

(** ** Iterations of the binary search *)

(** Each iteration at least halves the interval: [fuel] iterations are
    enough for an interval narrower than 2 ^ fuel. *)
Lemma search_halves (terrain : list Point) (x : Q) (fuel : nat) :
  forall lo hi,
    (lo <= hi)%nat -> (hi + 2 <= length terrain)%nat ->
    (hi - lo < 2 ^ fuel)%nat ->
    exists k, search fuel terrain x lo hi = Ok k /\ (lo <= k <= hi)%nat.
Proof.
  induction fuel as [|fuel IH]; intros lo hi Hle Hhi Hw.
  - cbn [Nat.pow] in Hw. assert (lo = hi) by lia. subst hi.
    exists lo. cbn [search]. rewrite Nat.ltb_irrefl. split; [reflexivity|lia].
  - cbn [search]. destruct (lo <? hi)%nat eqn:Hlt.
    + apply Nat.ltb_lt in Hlt.
      assert (Hd := Nat.div_mod_eq (lo + hi) 2).
      assert (Hm := Nat.mod_upper_bound (lo + hi) 2).
      rewrite Nat.pow_succ_r' in Hw.
      unfold search_step.
      destruct (get_in_range terrain ((lo + hi) / 2 + 1)) as [p Hp]; [lia|].
      rewrite Hp. cbn [deref bind].
      destruct (leb (px p) x); cbn [bind fst snd].
      * destruct (IH ((lo + hi) / 2 + 1)%nat hi) as (k & Hk & Hr); try lia.
        exists k. split; [exact Hk | lia].
      * destruct (IH lo ((lo + hi) / 2)%nat) as (k & Hk & Hr); try lia.
        exists k. split; [exact Hk | lia].
    + apply Nat.ltb_ge in Hlt. exists lo. split; [reflexivity | lia].
Qed.

(** X8: the lookup takes logarithmically many iterations: on a terrain of
    at least two points, any budget [fuel] with length - 2 < 2 ^ fuel gives
    the value of [terrainYAt]. *)
Theorem terrainYAt_logarithmic (terrain : list Point) (x : Q) (fuel : nat) :
  (2 <= length terrain)%nat -> (length terrain - 2 < 2 ^ fuel)%nat ->
  terrainYAt_fuel fuel terrain x = terrainYAt terrain x.
Proof.
  intros Hlen Hfuel.
  destruct (search_halves terrain x fuel 0 (length terrain - 2))
    as (k & Hk & Hr); try lia.
  assert (Hv : exists v, terrainYAt_fuel fuel terrain x = Ok v).
  { unfold terrainYAt_fuel.
    destruct (length terrain <? 2)%nat; [now exists H|].
    rewrite Hk. cbn [bind].
    destruct (get_in_range terrain k) as [p1 H1]; [lia|].
    destruct (get_in_range terrain (Nat.min (k + 1) (length terrain - 1)))
      as [p2 H2]; [lia|].
    rewrite H1, H2. cbn [bind deref].
    destruct (eqb (px p2) (px p1)); eexists; reflexivity. }
  destruct Hv as [v Hv]. rewrite Hv. symmetry.
  destruct (terrainYAt_total terrain x) as [v' Hv'].
  rewrite Hv'. f_equal.
  assert (E1 := terrainYAt_fuel_more terrain x fuel (Nat.max fuel (length terrain))
                  v Hv (Nat.le_max_l _ _)).
  assert (E2 := terrainYAt_fuel_more terrain x (length terrain)
                  (Nat.max fuel (length terrain)) v' Hv' (Nat.le_max_r _ _)).
  rewrite E1 in E2. now injection E2.
Qed.

Lemma terrainYAt_logarithmic_witness :
  ((2 <= length (points (fst (generateTerrain halves 0))))%nat
   /\ (length (points (fst (generateTerrain halves 0))) - 2 < 2 ^ 7)%nat)
  /\ terrainYAt_fuel 7 (points (fst (generateTerrain halves 0))) 123
     = terrainYAt (points (fst (generateTerrain halves 0))) 123.
Proof.
  assert (Hlen : (2 <= length (points (fst (generateTerrain halves 0))))%nat).
  { rewrite generateTerrain_length. lia. }
  assert (Hfuel : (length (points (fst (generateTerrain halves 0))) - 2
                   < 2 ^ 7)%nat).
  { rewrite generateTerrain_length. cbn. lia. }
  split; [split; assumption|].
  exact (terrainYAt_logarithmic _ 123 7 Hlen Hfuel).
Defined.

(** ** The angle to upright *)

(** The quotient truncated towards zero, as [rem] takes it. *)
Lemma truncation_bounds (d : Q) :
  (0 <= d ->
   inject_Z (Z.quot (Qnum d) (Zpos (Qden d))) <= d
   /\ d < inject_Z (Z.quot (Qnum d) (Zpos (Qden d))) + 1)
  /\ (d <= 0 ->
      d <= inject_Z (Z.quot (Qnum d) (Zpos (Qden d)))
      /\ inject_Z (Z.quot (Qnum d) (Zpos (Qden d))) - 1 < d).
Proof.
  destruct d as [num den]. cbn [Qnum Qden]. split; intros Hd.
  - assert (Hn : (0 <= num)%Z).
    { unfold Qle in Hd. cbn in Hd. lia. }
    rewrite Z.quot_div_nonneg by lia.
    change (num / Zpos den)%Z with (Qfloor (num # den)).
    split; [apply Qfloor_le|].
    assert (Hlt := Qlt_floor (num # den)).
    rewrite inject_Z_plus in Hlt. exact Hlt.
  - assert (Hn : (num <= 0)%Z).
    { unfold Qle in Hd. cbn in Hd. lia. }
    assert (E : Z.quot num (Zpos den) = (- Qfloor (- (num # den)))%Z).
    { rewrite <- (Z.opp_involutive num) at 1.
      rewrite Z.quot_opp_l by lia.
      rewrite Z.quot_div_nonneg by lia. reflexivity. }
    rewrite E, inject_Z_opp.
    assert (Hle := Qfloor_le (- (num # den))).
    assert (Hlt := Qlt_floor (- (num # den))).
    rewrite inject_Z_plus in Hlt. change (inject_Z 1) with 1 in Hlt.
    split; lra.
Qed.

(** [a % 360] differs from [a] by a whole number of turns, is smaller than
    a turn and has the sign of [a]. *)
Lemma rem_360 (a : Q) :
  exists q : Z,
    rem a 360 == a - 360 * inject_Z q
    /\ (0 <= a -> 0 <= rem a 360 /\ rem a 360 < 360)
    /\ (a <= 0 -> -360 < rem a 360 /\ rem a 360 <= 0).
Proof.
  unfold rem. set (d := a / 360).
  assert (Hd : a == 360 * d) by (unfold d; field).
  exists (Z.quot (Qnum d) (Zpos (Qden d))).
  destruct (truncation_bounds d) as [Hpos Hneg].
  split; [reflexivity|]. split; intros Ha.
  - destruct Hpos as [H1 H2]; lra.
  - destruct Hneg as [H1 H2]; lra.
Qed.

(** [((a % 360) + 360) % 360] is the angle brought into [0, 360) by whole
    turns. *)
Lemma normAngle_spec (a : Q) :
  exists k : Z,
    rem (rem a 360 + 360) 360 == a - 360 * inject_Z k
    /\ 0 <= rem (rem a 360 + 360) 360
    /\ rem (rem a 360 + 360) 360 < 360.
Proof.
  destruct (rem_360 a) as (q1 & E1 & Hpos1 & Hneg1).
  assert (Hr : 0 <= rem a 360 + 360 /\ rem a 360 + 360 < 720).
  { destruct (Qlt_le_dec a 0) as [Hlt | Hge].
    - destruct Hneg1; lra.
    - destruct (Hpos1 Hge); lra. }
  destruct (rem_360 (rem a 360 + 360)) as (q2 & E2 & Hpos2 & _).
  destruct Hpos2 as [H1 H2]; [lra|].
  exists (q1 + q2 - 1)%Z. split; [|split; assumption].
  rewrite E2, E1. unfold Z.sub.
  rewrite !inject_Z_plus, inject_Z_opp. change (inject_Z 1) with 1. lra.
Qed.

Lemma angleDiff_spec (l : Lander.t) :
  exists (k : Z) (norm : Q),
    norm == Lander.angle l - 360 * inject_Z k
    /\ 0 <= norm /\ norm < 360
    /\ ((norm <= 180 /\ angleDiff l == norm)
        \/ (180 <= norm /\ angleDiff l == 360 - norm)).
Proof.
  destruct (normAngle_spec (Lander.angle l)) as (k & E & H0 & H360).
  exists k, (rem (rem (Lander.angle l) 360 + 360) 360).
  split; [exact E|]. split; [exact H0|]. split; [exact H360|].
  unfold angleDiff, Math_min.
  set (norm := rem (rem (Lander.angle l) 360 + 360) 360) in *.
  destruct (Q.min_spec norm (360 - norm)) as [[Hlt Hm] | [Hle Hm]].
  - left. split; [lra | exact Hm].
  - right. split; [lra | exact Hm].
Qed.

(** X9: whatever angle has accumulated, the angle to upright that the
    landing test and the HUD use lies from 0 to 180. *)
Theorem angleDiff_range (l : Lander.t) :
  0 <= angleDiff l /\ angleDiff l <= 180.
Proof.
  destruct (angleDiff_spec l) as (k & norm & _ & H0 & H360 & [[H1 E] | [H1 E]]);
    rewrite E; split; lra.
Qed.

(** X10: the angle is safe for landing exactly when it is within
    MAX_LAND_ANGLE of a whole number of turns: full rotations in either
    direction do not count against the landing. *)
Theorem safeAngle_iff_near_upright (l : Lander.t) :
  safeAngle l = true
  <-> exists k : Z,
        - MAX_LAND_ANGLE <= Lander.angle l - 360 * inject_Z k
        /\ Lander.angle l - 360 * inject_Z k <= MAX_LAND_ANGLE.
Proof.
  unfold safeAngle. rewrite leb_le. unfold MAX_LAND_ANGLE.
  destruct (angleDiff_spec l) as (k & norm & E & H0 & H360 & Hd).
  split.
  - intros Hsafe. destruct Hd as [[H1 Ed] | [H1 Ed]]; rewrite Ed in Hsafe.
    + exists k. lra.
    + exists (k + 1)%Z. rewrite inject_Z_plus. change (inject_Z 1) with 1. lra.
  - intros (k' & Hlo & Hhi).
    assert (Hm : inject_Z (k' - k) == inject_Z k' - inject_Z k).
    { unfold Z.sub. rewrite inject_Z_plus, inject_Z_opp. lra. }
    assert (Hm1 : inject_Z (-1) < inject_Z (k' - k)).
    { change (inject_Z (-1)) with (-1). lra. }
    assert (Hm2 : inject_Z (k' - k) < inject_Z 2).
    { change (inject_Z 2) with 2. lra. }
    rewrite <- Zlt_Qlt in Hm1, Hm2.
    assert (Hcase : (k' = k \/ k' = k + 1)%Z) by lia.
    destruct Hcase as [-> | ->].
    + destruct Hd as [[H1 Ed] | [H1 Ed]]; rewrite Ed; lra.
    + rewrite inject_Z_plus in Hlo, Hhi. change (inject_Z 1) with 1 in Hlo, Hhi.
      destruct Hd as [[H1 Ed] | [H1 Ed]]; rewrite Ed; lra.
Qed.

(** ** The outcome of a tick *)

Lemma landing_test_iff (g : Game) (l : Lander.t) :
  onPad g l && safeAngle l && safeSpeed l = true <-> safe_touchdown g l.
Proof.
  unfold onPad, safeAngle, safeSpeed, safe_touchdown, geb, Math_abs.
  rewrite !andb_true_iff, !leb_le. tauto.
Qed.

Section TickOutcome.

Variable trig : Trig.

Lemma at_impact_status (k : Keys) (l : Lander.t) :
  Lander.dead (at_impact trig k l) = Lander.dead l
  /\ Lander.landed (at_impact trig k l) = Lander.landed l
  /\ Lander.angle (at_impact trig k l) = Lander.angle (rotate k l).
Proof.
  unfold at_impact, integrated, wrap, move, gravity, thrust.
  break_ifs; cbn; unfold rotate; break_ifs; cbn; repeat split; reflexivity.
Qed.

(** The tick of an active lander, by the collision test. *)
Lemma update_cases (g : Game) :
  active g ->
  exists groundY,
    terrainYAt (terrain g)
      (Lander.x (at_impact trig (keys g) (lander g))) = Ok groundY
    /\ ((Lander.y (at_impact trig (keys g) (lander g)) + 14 < groundY
         /\ update trig g
            = Ok (set_lander (at_impact trig (keys g) (lander g)) g))
        \/ (groundY <= Lander.y (at_impact trig (keys g) (lander g)) + 14
            /\ update trig g
               = Ok (touch_down g (at_impact trig (keys g) (lander g))
                                groundY))).
Proof.
  intros Hact. rewrite (update_active trig g Hact). unfold collide.
  destruct (terrainYAt_total (terrain g)
              (Lander.x (at_impact trig (keys g) (lander g)))) as [gy Hgy].
  exists gy. split; [exact Hgy|]. rewrite Hgy. cbn [bind].
  destruct (geb (Lander.y (at_impact trig (keys g) (lander g)) + 14) gy)
    eqn:Hc; unfold geb in Hc.
  - right. apply leb_le in Hc. split; [exact Hc | reflexivity].
  - left. apply leb_gt in Hc. split; [exact Hc | reflexivity].
Qed.

Lemma touch_down_status (g : Game) (l : Lander.t) (groundY : Q) :
  Lander.dead l = false -> Lander.landed l = false ->
  (Lander.landed (lander (touch_down g l groundY)) = true
   <-> safe_touchdown g l)
  /\ (Lander.dead (lander (touch_down g l groundY)) = true
      <-> ~ safe_touchdown g l).
Proof.
  intros Hd Hl. rewrite <- landing_test_iff. unfold touch_down.
  destruct (onPad g l && safeAngle l && safeSpeed l); cbn; rewrite ?Hd, ?Hl;
    split; split; intros; try reflexivity; try discriminate; try tauto.
Qed.

(** X11: what a tick makes of an active lander is decided by the collision
    test on the lander as moved in this tick: it is landed exactly when the
    legs have reached the ground and it is on the pad, within
    MAX_LAND_ANGLE of upright and within both speed limits; dead exactly
    when the legs have reached the ground and one of these fails; and
    still active exactly when the legs are above the ground. *)
Theorem tick_outcome (g : Game) :
  active g ->
  exists g' groundY,
    update trig g = Ok g'
    /\ terrainYAt (terrain g)
         (Lander.x (at_impact trig (keys g) (lander g))) = Ok groundY
    /\ (Lander.landed (lander g') = true
        <-> groundY <= Lander.y (at_impact trig (keys g) (lander g)) + 14
            /\ safe_touchdown g (at_impact trig (keys g) (lander g)))
    /\ (Lander.dead (lander g') = true
        <-> groundY <= Lander.y (at_impact trig (keys g) (lander g)) + 14
            /\ ~ safe_touchdown g (at_impact trig (keys g) (lander g)))
    /\ (active g'
        <-> Lander.y (at_impact trig (keys g) (lander g)) + 14 < groundY).
Proof.
  intros Hact.
  destruct (at_impact_status (keys g) (lander g)) as (Hd & Hl & _).
  destruct Hact as [Hd0 Hl0]. rewrite Hd0 in Hd. rewrite Hl0 in Hl.
  destruct (update_cases g (conj Hd0 Hl0))
    as (gy & Hgy & [[Hair Hu] | [Hhit Hu]]).
  - exists (set_lander (at_impact trig (keys g) (lander g)) g), gy.
    split; [exact Hu|]. split; [exact Hgy|]. unfold active.
    cbn [lander set_lander]. rewrite Hd, Hl.
    split; [split; [discriminate | intros [Hc _]; lra]|].
    split; [split; [discriminate | intros [Hc _]; lra]|].
    split; [intros _; exact Hair | intros _; split; reflexivity].
  - exists (touch_down g (at_impact trig (keys g) (lander g)) gy), gy.
    split; [exact Hu|]. split; [exact Hgy|].
    destruct (touch_down_status g _ gy Hd Hl) as [Hland Hdead].
    destruct (touch_down_terminal g _ gy Hd Hl) as [Hterm _].
    split; [rewrite Hland; tauto|]. split; [rewrite Hdead; tauto|].
    unfold active. split.
    + intros [Hd' Hl']. rewrite Hd', Hl' in Hterm. discriminate.
    + intros Hlt. lra.
Qed.

End TickOutcome.

Lemma tick_outcome_witness :
  active final_approach
  /\ exists g' groundY,
       update sample_trig final_approach = Ok g'
       /\ (Lander.landed (lander g') = true
           <-> groundY <= Lander.y (at_impact sample_trig (keys final_approach)
                                              (lander final_approach)) + 14
               /\ safe_touchdown final_approach
                    (at_impact sample_trig (keys final_approach)
                               (lander final_approach))).
Proof.
  assert (Hact : active final_approach) by (split; reflexivity).
  split; [exact Hact|].
  destruct (tick_outcome sample_trig final_approach Hact)
    as (g' & gy & Hu & _ & Hland & _).
  exists g', gy. split; [exact Hu | exact Hland].
Defined.

Section TickFrame.

Variable trig : Trig.

(** What a contact leaves as it is, and where it puts the lander. *)
Lemma touch_down_rest (g : Game) (l : Lander.t) (groundY : Q) :
  terrain (touch_down g l groundY) = terrain g
  /\ padX (touch_down g l groundY) = padX g
  /\ padY (touch_down g l groundY) = padY g
  /\ keys (touch_down g l groundY) = keys g
  /\ Lander.x (lander (touch_down g l groundY)) = Lander.x l
  /\ Lander.y (lander (touch_down g l groundY)) = groundY - 14
  /\ Lander.angle (lander (touch_down g l groundY)) = Lander.angle l
  /\ message (touch_down g l groundY) <> None.
Proof.
  unfold touch_down. break_ifs; cbn; repeat split; try reflexivity;
    discriminate.
Qed.

Lemma update_keeps_terrain (g g' : Game) :
  update trig g = Ok g' ->
  terrain g' = terrain g /\ padX g' = padX g /\ padY g' = padY g
  /\ keys g' = keys g.
Proof.
  unfold update.
  destruct (Lander.dead (lander g) || Lander.landed (lander g)).
  - intros [= <-]. repeat split; reflexivity.
  - unfold collide.
    destruct (terrainYAt (terrain g) _) as [gy| |]; cbn [bind];
      try discriminate.
    destruct (geb _ gy); intros [= <-].
    + destruct (touch_down_rest g (at_impact trig (keys g) (lander g)) gy)
        as (H1 & H2 & H3 & H4 & _).
      repeat split; assumption.
    + repeat split; reflexivity.
Qed.

(** X12: a tick never leaves an active lander sunk into the terrain: after
    it the legs are at the ground height under the lander or above it, and
    exactly at it when the tick ended the flight, however deep the move of
    this tick went. *)
Theorem never_below_ground (g : Game) :
  active g ->
  exists g' groundY,
    update trig g = Ok g'
    /\ terrainYAt (terrain g') (Lander.x (lander g')) = Ok groundY
    /\ Lander.y (lander g') + 14 <= groundY
    /\ (active g' \/ Lander.y (lander g') + 14 == groundY).
Proof.
  intros Hact.
  destruct (at_impact_status trig (keys g) (lander g)) as (Hd & Hl & _).
  destruct (update_cases trig g Hact) as (gy & Hgy & [[Hair Hu] | [Hhit Hu]]).
  - exists (set_lander (at_impact trig (keys g) (lander g)) g), gy.
    split; [exact Hu|]. cbn [terrain lander set_lander].
    split; [exact Hgy|]. split; [lra|]. left.
    destruct Hact as [Hd0 Hl0]. unfold active. cbn [lander set_lander].
    rewrite Hd, Hl. split; assumption.
  - exists (touch_down g (at_impact trig (keys g) (lander g)) gy), gy.
    split; [exact Hu|].
    destruct (touch_down_rest g (at_impact trig (keys g) (lander g)) gy)
      as (Ht & _ & _ & _ & Hx & Hy & _).
    rewrite Ht, Hx, Hy. split; [exact Hgy|]. split; [lra | right; lra].
Qed.

(** X13: a tick of an active lander turns it by ROTATE_SPEED to the left
    for the left key and by ROTATE_SPEED to the right for the right key;
    with both keys held the angle stays. *)
Theorem tick_rotation (g : Game) :
  active g ->
  exists g',
    update trig g = Ok g'
    /\ Lander.angle (lander g')
       == Lander.angle (lander g)
          + (if ArrowRight (keys g) then ROTATE_SPEED else 0)
          - (if ArrowLeft (keys g) then ROTATE_SPEED else 0).
Proof.
  intros Hact.
  destruct (at_impact_status trig (keys g) (lander g)) as (_ & _ & Ha).
  assert (Hrot : Lander.angle (rotate (keys g) (lander g))
                 == Lander.angle (lander g)
                    + (if ArrowRight (keys g) then ROTATE_SPEED else 0)
                    - (if ArrowLeft (keys g) then ROTATE_SPEED else 0)).
  { unfold rotate. destruct (ArrowLeft (keys g)), (ArrowRight (keys g));
      cbn; lra. }
  destruct (update_cases trig g Hact) as (gy & _ & [[_ Hu] | [_ Hu]]).
  - eexists. split; [exact Hu|]. cbn [lander set_lander].
    rewrite Ha. exact Hrot.
  - eexists. split; [exact Hu|].
    destruct (touch_down_rest g (at_impact trig (keys g) (lander g)) gy)
      as (_ & _ & _ & _ & _ & _ & Hang & _).
    rewrite Hang, Ha. exact Hrot.
Qed.

(** X14: the ticks of the game loop never change the terrain or the pad,
    whatever keys are held and however the flight goes. *)
Theorem run_keeps_terrain (inputs : list Keys) :
  forall g,
    exists g',
      run trig inputs g = Ok g'
      /\ terrain g' = terrain g /\ padX g' = padX g /\ padY g' = padY g.
Proof.
  induction inputs as [|k rest IH]; intros g; cbn [run].
  - exists g. repeat split; reflexivity.
  - destruct (update_total trig (set_keys k g)) as [g1 H1].
    rewrite H1. cbn [bind].
    destruct (update_keeps_terrain _ _ H1) as (Ht & Hx & Hy & _).
    destruct (IH g1) as (g' & Hr & Ht' & Hx' & Hy').
    exists g'. split; [exact Hr|].
    rewrite Ht', Hx', Hy', Ht, Hx, Hy. repeat split; reflexivity.
Qed.

End TickFrame.

Lemma never_below_ground_witness :
  active wreck_approach
  /\ exists g' groundY,
       update sample_trig wreck_approach = Ok g'
       /\ terrainYAt (terrain g') (Lander.x (lander g')) = Ok groundY
       /\ Lander.y (lander g') + 14 <= groundY
       /\ (active g' \/ Lander.y (lander g') + 14 == groundY).
Proof.
  assert (Hact : active wreck_approach) by (split; reflexivity).
  split; [exact Hact|].
  exact (never_below_ground sample_trig wreck_approach Hact).
Defined.

Lemma tick_rotation_witness :
  active (set_keys (mkKeys true true false false) edge_drift)
  /\ exists g',
       update sample_trig (set_keys (mkKeys true true false false) edge_drift)
       = Ok g'
       /\ Lander.angle (lander g') == 0.
Proof.
  assert (Hact : active (set_keys (mkKeys true true false false) edge_drift))
    by (split; reflexivity).
  split; [exact Hact|].
  destruct (tick_rotation sample_trig _ Hact) as (g' & Hu & Ha).
  exists g'. split; [exact Hu|]. rewrite Ha. vm_compute. reflexivity.
Defined.

(** ** The session *)

Lemma sound_state_keys (k : Keys) (g : Game) :
  sound_state g -> sound_state (set_keys k g).
Proof.
  intros Hs. exact Hs.
Qed.

(** A reset leaves a sound game, whatever the game was. *)
Lemma resetGame_sound (rnd : Random) (n : nat) (k : Keys) :
  (forall j, 0 <= rnd j /\ rnd j < 1) ->
  sound_state (fst (resetGame rnd n k)).
Proof.
  intros Hrnd.
  assert (Hlen := generateTerrain_length rnd n).
  assert (Hinc := generateTerrain_increasing rnd n).
  assert (Hpts := fun i p => generateTerrain_point_bounds rnd n i p Hrnd).
  assert (Hmid : 0 <= W / 2 /\ W / 2 <= W)
    by (split; vm_compute; discriminate).
  destruct (generateTerrain_ground rnd n (W / 2) Hrnd) as (gy & Hgy & Hg1 & _);
    [apply Hmid | apply Hmid |].
  destruct (pad_bounds (rnd n) (rnd (n + 1)%nat)) as [[Hx1 Hx2] _];
    try apply Hrnd.
  assert (Hpad : terrain_padX (fst (generateTerrain rnd n))
                 = Math_floor (rnd n * (W * 0.5) + W * 0.2)) by reflexivity.
  unfold resetGame. destruct (generateTerrain rnd n) as [t n1].
  cbn [fst] in *. unfold sound_state, active.
  cbn [fst terrain padX lander score message createLander
       Lander.x Lander.y Lander.dead Lander.landed].
  split; [exact Hlen|]. split; [exact Hinc|]. split; [exact Hpts|].
  split; [rewrite Hpad; split; [assumption | lra]|].
  split; [exact Hmid|].
  split; [exists gy; split; [exact Hgy|];
          split; [unfold H in Hg1; lra | left; split; reflexivity]|].
  split; [exists 500%Z; split; [split; [lia | reflexivity] | lia]|].
  split; [reflexivity|].
  split; [split; [intros _; split; reflexivity | reflexivity]|].
  split; [reflexivity | discriminate].
Qed.

Lemma touch_down_score (g : Game) (l : Lander.t) (groundY : Q) :
  Lander.landed l = false ->
  (Lander.landed (lander (touch_down g l groundY)) = false ->
   score (touch_down g l groundY) = score g)
  /\ (Lander.landed (lander (touch_down g l groundY)) = true ->
      score (touch_down g l groundY)
      == Lander.fuel (lander (touch_down g l groundY)) + 200).
Proof.
  intros Hl. unfold touch_down.
  destruct (onPad g l && safeAngle l && safeSpeed l); cbn; rewrite ?Hl;
    split; intros; try reflexivity; discriminate.
Qed.

(** The game that the [keydown] listener leaves. *)
Lemma keydown_game (rnd : Random) (code : string) (s : Session) :
  game (fst (keydown rnd code s))
  = if String.eqb code "KeyR"
    then fst (resetGame rnd (made s) (set_key code true (keys (game s))))
    else set_keys (set_key code true (keys (game s))) (game s).
Proof.
  unfold keydown.
  change (keys (set_keys (set_key code true (keys (game s))) (game s)))
    with (set_key code true (keys (game s))).
  destruct (String.eqb code "KeyR"); [|reflexivity].
  destruct (resetGame rnd (made s) (set_key code true (keys (game s))))
    as [g1 n1].
  reflexivity.
Qed.

Section SessionFacts.

Variable trig : Trig.
Variable rnd : Random.
Hypothesis rnd_range : forall j, 0 <= rnd j /\ rnd j < 1.

(** A tick leaves a sound game sound. *)
Lemma update_sound (g g' : Game) :
  sound_state g -> update trig g = Ok g' -> sound_state g'.
Proof.
  intros Hs Hu.
  destruct (Lander.dead (lander g) || Lander.landed (lander g)) eqn:Hterm.
  { unfold update in Hu. rewrite Hterm in Hu. injection Hu as <-. exact Hs. }
  apply orb_false_iff in Hterm. fold (active g) in Hterm.
  destruct Hs as (S1 & S2 & S3 & S4 & S5 & S6 & (n & Hw & Hn) & S8 & S9
                  & S10 & S11).
  destruct (update_whole_fuel trig g g' n Hu Hw) as (n' & Hw' & Hn').
  destruct (at_impact_status trig (keys g) (lander g)) as (Hd & Hl & _).
  destruct Hterm as [Hd0 Hl0]. rewrite Hd0 in Hd. rewrite Hl0 in Hl.
  destruct (update_cases trig g (conj Hd0 Hl0))
    as (gy & Hgy & [[Hair Hu'] | [Hhit Hu']]);
    rewrite Hu' in Hu; injection Hu as <-.
  - unfold sound_state, active in *. cbn [terrain padX lander score message
                                           set_lander] in *.
    split; [exact S1|]. split; [exact S2|]. split; [exact S3|].
    split; [exact S4|].
    split; [apply (wrap_range (integrated trig (keys g) (lander g)))|].
    split; [exists gy; split; [exact Hgy|];
            split; [lra | left; split; assumption]|].
    split; [exists n'; split; [exact Hw' | lia]|].
    split; [rewrite Hd; reflexivity|].
    rewrite Hd, Hl.
    split; [split; [intros _; split; reflexivity
                   | intros _; apply S9; split; assumption]|].
    split; [intros _; apply S10; exact Hl0 | discriminate].
  - destruct (touch_down_rest g (at_impact trig (keys g) (lander g)) gy)
      as (Ht & Hpx & _ & _ & Hx & Hy & _ & Hmsg).
    destruct (touch_down_terminal g _ gy Hd Hl) as [Hterm Hexcl].
    destruct (touch_down_score g _ gy Hl) as [Hsc0 Hsc1].
    unfold sound_state, active.
    rewrite Ht, Hpx, Hx, Hy.
    split; [exact S1|]. split; [exact S2|]. split; [exact S3|].
    split; [exact S4|].
    split; [apply (wrap_range (integrated trig (keys g) (lander g)))|].
    split; [exists gy; split; [exact Hgy|]; split; [lra | right; lra]|].
    split; [exists n'; split; [exact Hw' | lia]|].
    split; [rewrite Hexcl; apply andb_negb_l|].
    split.
    { split; [intros E; contradiction|].
      intros [Hd' Hl']. rewrite Hd', Hl' in Hterm. discriminate. }
    split; [|exact Hsc1].
    intros Hl'. rewrite (Hsc0 Hl'). apply S10. exact Hl0.
Qed.

Lemma handle_sound (e : Event) (s s' : Session) :
  sound_state (game s) -> handle trig rnd e s = Ok s' ->
  sound_state (game s').
Proof.
  intros Hs. destruct e as [code | code |]; cbn [handle].
  - intros E. assert (E' : s' = fst (keydown rnd code s)) by congruence.
    rewrite E', keydown_game.
    destruct (String.eqb code "KeyR").
    + apply resetGame_sound. exact rnd_range.
    + exact Hs.
  - intros E. assert (E' : s' = keyup code s) by congruence.
    rewrite E'. exact Hs.
  - unfold loop.
    destruct (update trig (game s)) as [g| |] eqn:Hu; cbn [bind];
      try discriminate.
    intros [= <-]. cbn [game]. exact (update_sound _ _ Hs Hu).
Qed.

Lemma handle_total (e : Event) (s : Session) :
  exists s', handle trig rnd e s = Ok s'.
Proof.
  destruct e as [code | code |]; cbn [handle]; try (eexists; reflexivity).
  unfold loop. destruct (update_total trig (game s)) as [g Hg].
  rewrite Hg. cbn [bind]. eexists. reflexivity.
Qed.

Lemma play_sound (events : list Event) :
  forall s,
    sound_state (game s) ->
    exists s', play trig rnd events s = Ok s' /\ sound_state (game s').
Proof.
  induction events as [|e rest IH]; intros s Hs; cbn [play].
  - exists s. split; [reflexivity | exact Hs].
  - destruct (handle_total e s) as [s1 H1]. rewrite H1. cbn [bind].
    apply IH. exact (handle_sound e s s1 Hs H1).
Qed.

Lemma start_sound : sound_state (game (start rnd)).
Proof.
  unfold start.
  assert (Hr := resetGame_sound rnd (3 * STARS)
                  (mkKeys false false false false) rnd_range).
  destruct (resetGame rnd (3 * STARS) _) as [g n]. exact Hr.
Qed.

End SessionFacts.

(** X15: in a session with draws in [0, 1), after any sequence of key
    events and animation frames the game is sound: the terrain has 81
    points with strictly increasing x and heights from H * 0.45 to H - 20,
    the pad starts between 160 and 560, the lander's x is within [0, W],
    its legs are at the ground or above it (exactly at it once the flight
    is over), the fuel is a whole number from 0 to 500, the lander is not
    both dead and landed, there is a message exactly when the flight is
    over, and the score is 0 unless the lander has landed and then is its
    fuel plus 200. *)
Theorem session_stays_sound (trig : Trig) (rnd : Random)
        (events : list Event) :
  (forall j, 0 <= rnd j /\ rnd j < 1) ->
  exists s,
    play trig rnd events (start rnd) = Ok s /\ sound_state (game s).
Proof.
  intros Hrnd.
  exact (play_sound trig rnd Hrnd events (start rnd) (start_sound rnd Hrnd)).
Qed.

Lemma session_stays_sound_witness :
  (forall j, 0 <= sawtooth j /\ sawtooth j < 1)
  /\ exists s,
       play sample_trig sawtooth
            [KeyDown "ArrowUp"; AnimationFrame; KeyDown "KeyR";
             KeyUp "ArrowUp"; AnimationFrame]
            (start sawtooth) = Ok s
       /\ sound_state (game s).
Proof.
  split; [exact sawtooth_range|].
  exact (session_stays_sound sample_trig sawtooth _ sawtooth_range).
Defined.

Lemma set_key_other (code : string) (b : bool) (k : Keys) :
  String.eqb code "ArrowLeft" = false ->
  String.eqb code "ArrowRight" = false ->
  String.eqb code "ArrowUp" = false ->
  String.eqb code "Space" = false ->
  set_key code b k = k.
Proof.
  intros H1 H2 H3 H4. unfold set_key. rewrite H1, H2, H3, H4.
  destruct k; reflexivity.
Qed.

(** X16: pressing R restarts the game from any state, a finished flight
    included: a terrain is generated from the next draws and a lander
    created from the draw after them, active and with full fuel, the score
    is 0 and the message is gone; the keys held stay held, 84 draws are
    made, and the listener does not call [preventDefault]. *)
Theorem restart_key (rnd : Random) (s : Session) :
  terrain (game (fst (keydown rnd "KeyR" s)))
  = points (fst (generateTerrain rnd (made s)))
  /\ lander (game (fst (keydown rnd "KeyR" s)))
     = createLander (rnd (made s + 83)%nat)
  /\ active (game (fst (keydown rnd "KeyR" s)))
  /\ Lander.fuel (lander (game (fst (keydown rnd "KeyR" s)))) = INITIAL_FUEL
  /\ score (game (fst (keydown rnd "KeyR" s))) = 0
  /\ message (game (fst (keydown rnd "KeyR" s))) = None
  /\ keys (game (fst (keydown rnd "KeyR" s))) = keys (game s)
  /\ made (fst (keydown rnd "KeyR" s)) = (made s + 84)%nat
  /\ snd (keydown rnd "KeyR" s) = false.
Proof.
  assert (Hk : set_key "KeyR" true (keys (game s)) = keys (game s))
    by (apply set_key_other; reflexivity).
  assert (Hd := displace_draws rnd 0 80 120).
  unfold keydown.
  change (keys (set_keys (set_key "KeyR" true (keys (game s))) (game s)))
    with (set_key "KeyR" true (keys (game s))).
  rewrite Hk.
  change (String.eqb "KeyR" "KeyR") with true. cbv iota.
  unfold resetGame, generateTerrain.
  cbn [fst snd game made terrain lander score message keys points].
  change (Z.to_nat (Qceiling (W / step)) + 1 - 1)%nat with 80%nat.
  rewrite Hd. cbn [draws pred Nat.sub].
  replace (made s + 4 + 79)%nat with (made s + 83)%nat by lia.
  replace (S (made s + 83)) with (made s + 84)%nat by lia.
  repeat split; reflexivity.
Qed.

Lemma keydown_made (rnd : Random) (code : string) (s : Session) :
  String.eqb code "KeyR" = false ->
  made (fst (keydown rnd code s)) = made s.
Proof.
  intros Hc. unfold keydown. rewrite Hc. reflexivity.
Qed.

Section GameOver.

Variable trig : Trig.
Variable rnd : Random.

Lemma handle_terminal (e : Event) (s : Session) :
  Lander.dead (lander (game s)) = true
  \/ Lander.landed (lander (game s)) = true ->
  restarts e = false ->
  exists s',
    handle trig rnd e s = Ok s'
    /\ lander (game s') = lander (game s)
    /\ score (game s') = score (game s)
    /\ message (game s') = message (game s)
    /\ terrain (game s') = terrain (game s)
    /\ made s'
       = (made s
          + (if is_frame e && Lander.thrusting (lander (game s))
             then 1 else 0))%nat.
Proof.
  intros Hterm Hr. destruct e as [code | code |]; cbn [handle is_frame].
  - cbn [restarts] in Hr. eexists. split; [reflexivity|].
    rewrite keydown_game, (keydown_made rnd code s Hr), Hr.
    cbn [andb]. repeat split; try reflexivity. lia.
  - eexists. split; [reflexivity|]. cbn [andb]. unfold keyup.
    cbn [game made]. repeat split; try reflexivity. lia.
  - assert (Hu : update trig (game s) = Ok (game s)).
    { unfold update.
      destruct Hterm as [-> | ->]; [reflexivity | now rewrite orb_true_r]. }
    unfold loop. rewrite Hu. cbn [bind andb].
    eexists. split; [reflexivity|]. cbn [game made].
    repeat split; reflexivity.
Qed.

End GameOver.

(** X17: once the flight is over, nothing but the restart key changes the
    game: through any key events and animation frames without a press of R
    the lander, the score, the message and the terrain stay as they are.
    The thrusting flag stays as well, so a lander that ended its flight
    with the engine on takes one draw per frame for its flame. *)
Theorem game_over_until_restart (trig : Trig) (rnd : Random)
        (events : list Event) :
  forall s,
    Lander.dead (lander (game s)) = true
    \/ Lander.landed (lander (game s)) = true ->
    forallb (fun e => negb (restarts e)) events = true ->
    exists s',
      play trig rnd events s = Ok s'
      /\ lander (game s') = lander (game s)
      /\ score (game s') = score (game s)
      /\ message (game s') = message (game s)
      /\ terrain (game s') = terrain (game s)
      /\ made s'
         = (made s
            + (if Lander.thrusting (lander (game s))
               then length (filter is_frame events) else 0))%nat.
Proof.
  induction events as [|e rest IH]; intros s Hterm Hall; cbn [play].
  - exists s. split; [reflexivity|]. cbn [filter length].
    repeat split; try reflexivity. destruct (Lander.thrusting _); lia.
  - cbn [forallb] in Hall. apply andb_true_iff in Hall as [He Hrest].
    apply negb_true_iff in He.
    destruct (handle_terminal trig rnd e s Hterm He)
      as (s1 & H1 & Hl & Hs & Hm & Ht & Hmade).
    rewrite H1. cbn [bind].
    destruct (IH s1) as (s' & Hp & Hl' & Hs' & Hm' & Ht' & Hmade');
      [rewrite Hl; exact Hterm | exact Hrest |].
    exists s'. split; [exact Hp|].
    rewrite Hl', Hs', Hm', Ht', Hmade', Hmade, Hl.
    repeat split; try assumption.
    cbn [filter]. destruct (is_frame e), (Lander.thrusting (lander (game s)));
      cbn [andb length]; lia.
Qed.

Lemma game_over_until_restart_witness :
  (Lander.dead (lander (game (mkSession burning_wreck 600))) = true
   \/ Lander.landed (lander (game (mkSession burning_wreck 600))) = true)
  /\ forallb (fun e => negb (restarts e))
             [AnimationFrame; KeyDown "Space"; AnimationFrame; KeyUp "Space"]
     = true
  /\ exists s',
       play sample_trig halves
            [AnimationFrame; KeyDown "Space"; AnimationFrame; KeyUp "Space"]
            (mkSession burning_wreck 600) = Ok s'
       /\ lander (game s') = lander burning_wreck
       /\ made s' = 602%nat.
Proof.
  assert (Hterm : Lander.dead (lander (game (mkSession burning_wreck 600)))
                  = true
                  \/ Lander.landed (lander (game (mkSession burning_wreck 600)))
                     = true).
  { left. reflexivity. }
  assert (Hall : forallb (fun e => negb (restarts e))
                   [AnimationFrame; KeyDown "Space"; AnimationFrame;
                    KeyUp "Space"] = true).
  { reflexivity. }
  split; [exact Hterm|]. split; [exact Hall|].
  destruct (game_over_until_restart sample_trig halves _ _ Hterm Hall)
    as (s' & Hp & Hl & _ & _ & _ & Hmade).
  exists s'. split; [exact Hp|]. split; [exact Hl | exact Hmade].
Defined.

(** ** The HUD *)

(** X18: in a sound game the altitude readout is a whole number and never
    less than 14: it is measured from the centre of the lander, 14 above
    its legs, and reads exactly 14 once the flight is over. *)
Theorem hud_alt_at_least_14 (g : Game) :
  sound_state g ->
  exists (a : Q) (z : Z),
    hud_alt g = Ok a /\ a == inject_Z z /\ (14 <= z)%Z
    /\ (~ active g -> z = 14%Z).
Proof.
  intros (_ & _ & _ & _ & _ & (gy & Hgy & Hle & Hrest) & _).
  unfold hud_alt. rewrite Hgy. cbn [bind].
  set (d := gy - Lander.y (lander g)).
  assert (Hd : 14 <= d) by (unfold d; lra).
  assert (Hr : (14 <= Qfloor (d + (1 # 2)))%Z).
  { rewrite <- (Qfloor_Z 14). apply Qfloor_resp_le.
    change (inject_Z 14) with 14. lra. }
  exists (Math_max 0 (Math_round d)), (Qfloor (d + (1 # 2))).
  split; [reflexivity|]. split; [|split; [exact Hr|]].
  - unfold Math_max, Math_round. apply Q.max_r.
    change 0 with (inject_Z 0). rewrite <- Zle_Qle. lia.
  - intros Hna. destruct Hrest as [Hact | Heq]; [contradiction|].
    assert (E : d == 14) by (unfold d; lra).
    rewrite (Qfloor_comp _ (inject_Z 14 + (1 # 2))).
    + reflexivity.
    + rewrite E. reflexivity.
Qed.

Lemma hud_alt_at_least_14_witness :
  sound_state flat_game
  /\ exists (a : Q) (z : Z),
       hud_alt flat_game = Ok a /\ a == inject_Z z /\ (14 <= z)%Z.
Proof.
  assert (Hs : sound_state flat_game).
  { apply resetGame_sound. intros j. unfold halves. split; lra. }
  split; [exact Hs|].
  destruct (hud_alt_at_least_14 flat_game Hs) as (a & z & Ha & Hz & H14 & _).
  exists a, z. split; [exact Ha|]. split; [exact Hz | exact H14].
Defined.



(** ** The fresh lander *)

(** X20: for draws in [0, 1), a reset puts the lander in the air over the
    middle of the canvas: its legs are at least 176 above the ground under
    it, it sinks at 0.5 per frame and drifts sideways at no more than
    0.75 per frame, which is within the landing limit. *)
Theorem fresh_lander_is_airborne (rnd : Random) (n : nat) (k : Keys) :
  (forall j, 0 <= rnd j /\ rnd j < 1) ->
  exists groundY,
    terrainYAt (terrain (fst (resetGame rnd n k)))
               (Lander.x (lander (fst (resetGame rnd n k)))) = Ok groundY
    /\ Lander.y (lander (fst (resetGame rnd n k))) + 14 + 176 <= groundY
    /\ Lander.x (lander (fst (resetGame rnd n k))) == W / 2
    /\ Lander.vy (lander (fst (resetGame rnd n k))) == 0.5
    /\ Qabs (Lander.vx (lander (fst (resetGame rnd n k)))) <= 0.75
    /\ Qabs (Lander.vx (lander (fst (resetGame rnd n k)))) <= MAX_LAND_VX.
Proof.
  intros Hrnd.
  assert (Hmid : 0 <= W / 2 /\ W / 2 <= W)
    by (split; vm_compute; discriminate).
  destruct (generateTerrain_ground rnd n (W / 2) Hrnd) as (gy & Hgy & Hg1 & _);
    [apply Hmid | apply Hmid |].
  unfold resetGame. destruct (generateTerrain rnd n) as [t n1].
  cbn [fst terrain lander createLander Lander.x Lander.y Lander.vx Lander.vy]
    in *.
  exists gy. split; [exact Hgy|]. unfold H in Hg1.
  split; [lra|]. split; [reflexivity|]. split; [reflexivity|].
  destruct (Hrnd n1) as [Hr0 Hr1].
  assert (Habs : Qabs ((rnd n1 - 0.5) * 1.5) <= 0.75).
  { apply Qabs_Qle_condition. split; lra. }
  split; [exact Habs|]. unfold MAX_LAND_VX. lra.
Qed.

Lemma fresh_lander_is_airborne_witness :
  (forall j, 0 <= sawtooth j /\ sawtooth j < 1)
  /\ exists groundY,
       terrainYAt (terrain (fst (resetGame sawtooth 450 no_keys)))
                  (Lander.x (lander (fst (resetGame sawtooth 450 no_keys))))
       = Ok groundY
       /\ Lander.y (lander (fst (resetGame sawtooth 450 no_keys))) + 14 + 176
          <= groundY.
Proof.
  split; [exact sawtooth_range|].
  destruct (fresh_lander_is_airborne sawtooth 450 no_keys sawtooth_range)
    as (gy & Hgy & Hle & _).
  exists gy. split; [exact Hgy | exact Hle].
Defined.
